(** * AdaNet test utilities: [adanet/core/testing_utils.py]

    A shallow embedding of the test-support module of AdaNet and the
    properties its specification states about it.

    The module has two halves, and so has this development:

    - the _factories_ ([dummy_tensor], [dummy_ensemble_spec],
      [dummy_estimator_spec], [dummy_input_fn], [dataset_input_fn]), which
      build TensorFlow graph nodes and plain Python objects.  They run in a
      state monad [TF] over the interpreter state the module can see: its
      own module-level bindings and TensorFlow's default graph;
    - the test-case base class [AdanetTestCase], whose [setUp] and
      [tearDown] act on a file system.  They run in a state-and-exception
      monad [IO]. *)

From Stdlib Require Import ZArith String Ascii Floats List.
From stdpp Require Import gmap strings list fin_maps.

Set Warnings "-register-all".

Local Open Scope Z_scope.
Local Open Scope string_scope.

(** ** Python values *)

(** Element types of the tensors the module creates. *)
Inductive DType : Type := float32 | int64 | string_dtype.

(** The Python objects the module manipulates.  TensorFlow 1.x runs in graph
    mode: a call such as [tf.abs(x)] computes nothing, it returns a symbolic
    node.  Nodes are therefore represented by the call that created them;
    a random op by its shape and the two seeds TensorFlow gives it.  The
    name TensorFlow gives each node, unique in its graph, is not
    represented: two calls with the same arguments and seeds are the same
    node here. *)
Inductive PyVal : Type :=
  | PNone
  | PBool (b : bool)
  | PInt (z : Z)
  | PFloat (f : float)
  | PStr (s : string)
  | PList (l : list PyVal)
  | PTuple (l : list PyVal)
  | PDict (d : gmap string PyVal)
  (* graph nodes *)
  | RandomNormal (shape : list Z) (seed seed2 : Z)
  | VariableOp (initial_value : PyVal) (trainable : bool)
  | ReadValue (variable : PyVal)
  | ConvertToTensor (value : PyVal)
  | Const (value : PyVal) (name : option string)
  | Abs (x : PyVal)
  | Cast (x : PyVal) (dtype : DType)
  | AsString (x : PyVal)
  | Reshape (tensor : PyVal) (shape : list Z)
  | NoOp
  | TensorDataset (tensors : PyVal)
  | OneShotIterator (dataset : PyVal)
  | IteratorGetNext (iterator : PyVal)
  (* tf.estimator.export objects *)
  | ClassificationOutput (scores classes : PyVal)
  | RegressionOutput (value : PyVal)
  | PredictOutput (outputs : PyVal).

(** [v is None]. *)
Definition is_None (v : PyVal) : bool :=
  match v with PNone => true | _ => false end.

(** [v == s] for a [str] constant [s]: among the values above only a [str]
    with the same characters compares equal to a [str]. *)
Definition py_eq_str (v : PyVal) (s : string) : bool :=
  match v with PStr t => String.eqb t s | _ => false end.

(** [l * n] on a Python list: [n] copies of [l] back to back, and the empty
    list when [n] is zero or negative.  Every copy holds the same objects. *)
Definition list_mul {A : Type} (l : list A) (n : Z) : list A :=
  mjoin (replicate (Z.to_nat n) l).

(** Instances of the classes of [tf.estimator.export]. *)
Definition is_export_output (v : PyVal) : bool :=
  match v with
  | ClassificationOutput _ _ | RegressionOutput _ | PredictOutput _ => true
  | _ => false
  end.

(** [isinstance(v, tf.Tensor)]: the nodes that are tensors.  A variable, an
    operation without output, a dataset and an iterator are not. *)
Definition is_tensor (v : PyVal) : bool :=
  match v with
  | RandomNormal _ _ _ | ReadValue _ | ConvertToTensor _ | Const _ _ | Abs _
  | Cast _ _ | AsString _ | Reshape _ _ | IteratorGetNext _ => true
  | _ => false
  end.

(** [isinstance(v, tf.Operation)] *)
Definition is_operation (v : PyVal) : bool :=
  match v with NoOp => true | _ => false end.

(** The static shape of a tensor, or of the tensor a Python value converts
    to; [None] where it is not known. *)
Fixpoint shape_of (v : PyVal) : option (list Z) :=
  match v with
  | PBool _ | PInt _ | PFloat _ | PStr _ => Some []
  | PList l | PTuple l =>
      match map shape_of l with
      | [] => Some [0]
      | Some s :: rest =>
          if forallb (fun o => bool_decide (o = Some s)) rest
          then Some (Z.of_nat (length l) :: s)
          else None
      | None :: _ => None
      end
  | RandomNormal shape _ _ => Some shape
  | Reshape _ shape => Some shape
  | VariableOp x _ | ReadValue x | ConvertToTensor x | Const x _ | Abs x
  | Cast x _ | AsString x | TensorDataset x | OneShotIterator x
  | IteratorGetNext x => shape_of x
  | _ => None
  end.

(** [shape.num_elements()] of a fully known shape. *)
Definition num_elements (shape : list Z) : Z := fold_right Z.mul 1 shape.

(** ** Exceptions *)

Inductive Exception : Type :=
  | TypeError
  | ValueError
  | AttributeError
  | FileNotFoundError
  | NotADirectoryError
  | FileExistsError
  | RuntimeError.

(** How a call ends. *)
Inductive Outcome (A : Type) : Type :=
  | Returned (a : A)
  | Raised (e : Exception).
Arguments Returned {A} a.
Arguments Raised {A} e.

(** ** Interpreter state and the [TF] monad *)

(** What a factory call can observe or change: the bindings of the module's
    global namespace, and TensorFlow's default graph: its nodes, to which
    every TensorFlow call appends the node it creates, and its graph-level
    random seed, which [tf.set_random_seed] sets and random ops read. *)
Record World : Type := mkWorld {
  module_bindings : gmap string PyVal;
  default_graph : list PyVal;
  graph_seed : option Z
}.

Definition TF (A : Type) : Type := World -> A * World.

Definition ret {A : Type} (a : A) : TF A := fun w => (a, w).

Definition bind {A B : Type} (m : TF A) (k : A -> TF B) : TF B :=
  fun w => let (a, w') := m w in k a w'.

Declare Scope tf_scope.
Delimit Scope tf_scope with tf.
Notation "x <- m ;; k" := (bind m (fun x => k))
  (at level 100, m at next level, right associativity) : tf_scope.
Local Open Scope tf_scope.

(** The value a computation returns, and the state it leaves. *)
Definition result {A : Type} (m : TF A) (w : World) : A := fst (m w).
Definition world_after {A : Type} (m : TF A) (w : World) : World := snd (m w).

(** Registering a node in the default graph. *)
Definition add_to_graph (node : PyVal) : TF PyVal :=
  fun w =>
    (node,
     mkWorld (module_bindings w) (default_graph w ++ [node]) (graph_seed w)).

(** [tensorflow.python.framework.random_seed]: the seeds of a random op
    with the op-level seed [op_seed], under the graph-level seed of the
    default graph. *)
Module tf_random_seed.
Definition DEFAULT_GRAPH_SEED : Z := 87654321.
Definition MAXINT32 : Z := 2 ^ 31 - 1.
Definition truncate_seed (seed : Z) : Z := seed mod MAXINT32.
Definition get_seed (graph_seed : option Z) (op_seed : Z) : Z * Z :=
  let seeds :=
    match graph_seed with
    | Some global_seed => (truncate_seed global_seed, truncate_seed op_seed)
    | None => (DEFAULT_GRAPH_SEED, truncate_seed op_seed)
    end in
  if Z.eqb (fst seeds) 0 && Z.eqb (snd seeds) 0 then (0, MAXINT32) else seeds.
End tf_random_seed.
#[global] Arguments tf_random_seed.get_seed : simpl never.

(** The TensorFlow calls of the module.  Each one adds its node to the
    default graph and returns it.  A random op reads the graph-level seed;
    converting what already is a tensor returns it and adds nothing. *)
Module tf.
Definition random_normal (shape : list Z) (seed : Z) : TF PyVal :=
  fun w =>
    let seeds := tf_random_seed.get_seed (graph_seed w) seed in
    add_to_graph (RandomNormal shape (fst seeds) (snd seeds)) w.
Definition Variable_ (initial_value : PyVal) (trainable : bool) : TF PyVal :=
  add_to_graph (VariableOp initial_value trainable).
Definition read_value (variable : PyVal) : TF PyVal :=
  add_to_graph (ReadValue variable).
Definition convert_to_tensor (value : PyVal) : TF PyVal :=
  if is_tensor value then ret value else add_to_graph (ConvertToTensor value).
Definition constant (value : PyVal) (name : option string) : TF PyVal :=
  add_to_graph (Const value name).
Definition abs (x : PyVal) : TF PyVal := add_to_graph (Abs x).
Definition cast (x : PyVal) (dtype : DType) : TF PyVal :=
  add_to_graph (Cast x dtype).
Definition as_string (x : PyVal) : TF PyVal := add_to_graph (AsString x).
Definition reshape (tensor : PyVal) (shape : list Z) : TF PyVal :=
  add_to_graph (Reshape tensor shape).
Definition no_op : TF PyVal := add_to_graph NoOp.
Definition Dataset_from_tensors (tensors : PyVal) : TF PyVal :=
  add_to_graph (TensorDataset tensors).
Definition make_one_shot_iterator (dataset : PyVal) : TF PyVal :=
  add_to_graph (OneShotIterator dataset).
Definition get_next (iterator : PyVal) : TF PyVal :=
  add_to_graph (IteratorGetNext iterator).
End tf.

(** [tf.estimator.ModeKeys]. *)
Module ModeKeys.
Definition TRAIN : string := "train".
Definition EVAL : string := "eval".
Definition PREDICT : string := "infer".
End ModeKeys.

(** ** The records the factories build *)

Module Subnetwork.
(** Modelled from the spec: the record type [Subnetwork] is declared in
    [adanet.core.subnetwork], which is not among the sources.  It is the
    "subnetwork" of the glossary, a value object; its fields are the ones
    [dummy_ensemble_spec] passes by keyword. *)
Record t : Type := mk {
  last_layer : PyVal;
  logits : PyVal;
  complexity : PyVal;
  persisted_tensors : PyVal
}.

(** The record as the tuple of its named fields. *)
Definition fields (s : t) : list (string * PyVal) :=
  [("last_layer", last_layer s); ("logits", logits s);
   ("complexity", complexity s);
   ("persisted_tensors", persisted_tensors s)].
End Subnetwork.

Module WeightedSubnetwork.
(** Modelled from the spec: the record type [WeightedSubnetwork] (the
    "weighted-subnetwork record" of the data model) is declared in
    [adanet.core.ensemble], which is not among the sources; its fields are
    the ones [dummy_ensemble_spec] passes by keyword. *)
Record t : Type := mk {
  name : PyVal;
  iteration_number : PyVal;
  logits : PyVal;
  weight : PyVal;
  subnetwork : Subnetwork.t
}.

(** The fields of the record, followed by those of the nested subnetwork. *)
Definition fields (ws : t) : list (string * PyVal) :=
  [("name", name ws); ("iteration_number", iteration_number ws);
   ("logits", logits ws); ("weight", weight ws)]
  ++ Subnetwork.fields (subnetwork ws).
End WeightedSubnetwork.

Module ComplexityRegularized.
(** Modelled from the spec: the record type [ComplexityRegularized] (the
    ensemble inside an ensemble spec) is declared in [adanet.core.ensemble],
    which is not among the sources; its fields are the ones
    [dummy_ensemble_spec] passes by keyword. *)
Record t : Type := mk {
  weighted_subnetworks : list WeightedSubnetwork.t;
  bias : PyVal;
  logits : PyVal
}.
End ComplexityRegularized.

(** Modelled from the spec: the class [_Architecture] is declared in
    [adanet.core.architecture], which is not among the sources;
    [dummy_ensemble_spec] only calls its constructor, without arguments. *)
Inductive _Architecture : Type := new_Architecture.

Module _EnsembleSpec.
(** Modelled from the spec: the record type [_EnsembleSpec] (the "ensemble
    spec" of the glossary) is declared in [adanet.core.ensemble_builder],
    which is not among the sources; its fields are the ones
    [dummy_ensemble_spec] passes by keyword. *)
Record t : Type := mk {
  name : PyVal;
  ensemble : ComplexityRegularized.t;
  architecture : _Architecture;
  subnetwork_builders : PyVal;
  predictions : PyVal;
  loss : PyVal;
  adanet_loss : PyVal;
  train_op : PyVal;
  eval_metrics : PyVal;
  export_outputs : PyVal
}.
End _EnsembleSpec.

Module EstimatorSpec.
(** [tf.estimator.EstimatorSpec] (the "estimator spec" of the glossary),
    with the fields [dummy_estimator_spec] passes by keyword. *)
Record t : Type := mk {
  mode : string;
  predictions : PyVal;
  loss : PyVal;
  train_op : PyVal;
  eval_metric_ops : PyVal
}.

(** Every value of a dictionary passes a test. *)
Definition all_values (test : PyVal -> bool) (d : gmap string PyVal) : bool :=
  map_fold (fun _ value rest => test value && rest) true d.

(** Every leaf of a nest of tuples, lists and dictionaries is a tensor or
    an operation. *)
Fixpoint all_tensors_or_operations (v : PyVal) : bool :=
  match v with
  | PTuple l | PList l => forallb all_tensors_or_operations l
  | PDict d =>
      map_fold (fun _ value rest => all_tensors_or_operations value && rest)
        true d
  | _ => is_tensor v || is_operation v
  end.

(** A metric: a pair of a value, possibly nested, and an update op. *)
Definition is_metric (v : PyVal) : bool :=
  match v with
  | PTuple [metric_value; metric_update] =>
      all_tensors_or_operations metric_value
      && (is_tensor metric_update || is_operation metric_update)
  | _ => false
  end.

(** The validation of [train_op]. *)
Definition check_train_op (mode : string) (train_op : PyVal)
  : Outcome PyVal :=
  if is_None train_op then
    if String.eqb mode ModeKeys.TRAIN then Raised ValueError
    else Returned train_op
  else if is_tensor train_op || is_operation train_op then Returned train_op
  else Raised TypeError.

(** The validation of [loss]: it must be a tensor with one element, and is
    reshaped to a scalar when its shape is known not to be one. *)
Definition check_loss (mode : string) (loss : PyVal) : TF (Outcome PyVal) :=
  if is_None loss then
    ret (if String.eqb mode ModeKeys.TRAIN || String.eqb mode ModeKeys.EVAL
         then Raised ValueError else Returned loss)
  else if negb (is_tensor loss) then ret (Raised TypeError)
  else
    match shape_of loss with
    | None => ret (Returned loss)
    | Some [] => ret (Returned loss)
    | Some shape =>
        if Z.eqb (num_elements shape) 1 then
          reshaped <- tf.reshape loss [] ;;
          ret (Returned reshaped)
        else ret (Raised ValueError)
    end.

(** The validation of [predictions]. *)
Definition check_predictions (mode : string) (predictions : PyVal)
  : Outcome PyVal :=
  match predictions with
  | PNone =>
      if String.eqb mode ModeKeys.PREDICT then Raised ValueError
      else Returned (PDict ∅)
  | PDict d =>
      if all_values is_tensor d then Returned predictions else Raised TypeError
  | _ => if is_tensor predictions then Returned predictions else Raised TypeError
  end.

(** The validation of [eval_metric_ops]. *)
Definition check_eval_metric_ops (eval_metric_ops : PyVal) : Outcome PyVal :=
  match eval_metric_ops with
  | PNone => Returned (PDict ∅)
  | PDict d =>
      if all_values is_metric d then Returned eval_metric_ops
      else Raised TypeError
  | _ => Raised TypeError
  end.

(** [EstimatorSpec(mode, predictions, loss, train_op, eval_metric_ops)]: the
    constructor validates its arguments in this order and raises on the
    first that fails.  Tensors carry no reference to their graph here, so
    its last check, that they all belong to the default graph, has no
    counterpart. *)
Definition new (mode : string)
    (predictions loss train_op eval_metric_ops : PyVal) : TF (Outcome t) :=
  match check_train_op mode train_op with
  | Raised e => ret (Raised e)
  | Returned train_op =>
      checked_loss <- check_loss mode loss ;;
      match checked_loss with
      | Raised e => ret (Raised e)
      | Returned loss =>
          match check_predictions mode predictions with
          | Raised e => ret (Raised e)
          | Returned predictions =>
              match check_eval_metric_ops eval_metric_ops with
              | Raised e => ret (Raised e)
              | Returned eval_metric_ops =>
                  ret (Returned
                         (mk mode predictions loss train_op eval_metric_ops))
              end
          end
      end
  end.
End EstimatorSpec.

(** ** The factories *)

(** [dummy_tensor(shape=(), random_seed=42)] *)
Definition dummy_tensor (shape : list Z) (random_seed : Z) : TF PyVal :=
  initial_value <- tf.random_normal shape random_seed ;;
  variable <- tf.Variable_ initial_value false ;;
  tf.read_value variable.

(** [class ExportOutputKeys] *)
Module ExportOutputKeys.
Definition CLASSIFICATION_CLASSES : string := "classification_classes".
Definition CLASSIFICATION_SCORES : string := "classification_scores".
Definition REGRESSION : string := "regression".
Definition PREDICTION : string := "prediction".
Definition INVALID : string := "invalid".
Definition all : list string :=
    [CLASSIFICATION_CLASSES; CLASSIFICATION_SCORES; REGRESSION; PREDICTION;
     INVALID].
End ExportOutputKeys.

(** The dictionary display [{key: value}].  Dictionaries are keyed by [str]
    here; the display is only reached with a key that compared equal to a
    [str] constant. *)
Definition dict_display (key value : PyVal) : PyVal :=
  match key with
  | PStr k => PDict {[ k := value ]}
  | _ => PDict ∅
  end.

(** [_dummy_export_outputs(export_output_key, logits, predictions)] *)
Definition _dummy_export_outputs (export_output_key logits predictions : PyVal)
  : TF PyVal :=
  if py_eq_str export_output_key ExportOutputKeys.CLASSIFICATION_CLASSES then
    classes <- tf.as_string logits ;;
    ret (dict_display export_output_key (ClassificationOutput PNone classes))
  else if py_eq_str export_output_key ExportOutputKeys.CLASSIFICATION_SCORES then
    ret (dict_display export_output_key (ClassificationOutput logits PNone))
  else if py_eq_str export_output_key ExportOutputKeys.REGRESSION then
    ret (dict_display export_output_key (RegressionOutput logits))
  else if py_eq_str export_output_key ExportOutputKeys.PREDICTION then
    ret (dict_display export_output_key (PredictOutput predictions))
  else if py_eq_str export_output_key ExportOutputKeys.INVALID then
    ret (dict_display export_output_key predictions)
  else
    ret PNone.

(** [dummy_ensemble_spec(name, random_seed=42, num_subnetworks=1, bias=0.,
    loss=None, adanet_loss=None, eval_metrics=None, dict_predictions=False,
    export_output_key=None, subnetwork_builders=None, train_op=None)] *)
Definition dummy_ensemble_spec
    (name : PyVal) (random_seed : Z) (num_subnetworks : Z) (bias : PyVal)
    (loss adanet_loss eval_metrics : PyVal) (dict_predictions : bool)
    (export_output_key subnetwork_builders train_op : PyVal)
  : TF _EnsembleSpec.t :=
  loss <- (if is_None loss then dummy_tensor [] random_seed else ret loss) ;;
  adanet_loss <- (if is_None adanet_loss
                  then dummy_tensor [] (random_seed * 2)
                  else tf.convert_to_tensor adanet_loss) ;;
  logits <- dummy_tensor [] (random_seed * 3) ;;
  predictions <- (if dict_predictions then
                    abs_logits <- tf.abs logits ;;
                    classes <- tf.cast abs_logits int64 ;;
                    ret (PDict (<["logits" := logits]>
                                 (<["classes" := classes]> ∅)))
                  else ret logits) ;;
  ws_logits <- dummy_tensor [2; 1] (random_seed * 4) ;;
  ws_weight <- dummy_tensor [2; 1] (random_seed * 4) ;;
  sub_last_layer <- dummy_tensor [1; 2] (random_seed * 4) ;;
  sub_logits <- dummy_tensor [2; 1] (random_seed * 4) ;;
  let weighted_subnetworks :=
    [WeightedSubnetwork.mk name (PInt 1) ws_logits ws_weight
       (Subnetwork.mk sub_last_layer sub_logits (PFloat 1) (PDict ∅))] in
  export_outputs <- _dummy_export_outputs export_output_key logits predictions ;;
  bias <- tf.constant bias None ;;
  ret (_EnsembleSpec.mk
         name
         (ComplexityRegularized.mk
            (list_mul weighted_subnetworks num_subnetworks) bias logits)
         new_Architecture
         subnetwork_builders
         predictions
         loss
         adanet_loss
         train_op
         eval_metrics
         export_outputs).

(** [dummy_estimator_spec(loss=None, random_seed=42, eval_metric_ops=None)] *)
Definition dummy_estimator_spec (loss : PyVal) (random_seed : Z)
    (eval_metric_ops : PyVal) : TF (Outcome EstimatorSpec.t) :=
  loss <- (if is_None loss then dummy_tensor [] random_seed else ret loss) ;;
  predictions <- dummy_tensor [] (random_seed * 2) ;;
  train_op <- tf.no_op ;;
  EstimatorSpec.new ModeKeys.TRAIN predictions loss train_op eval_metric_ops.

(** [dummy_input_fn(features, labels)]: the call returns the closure
    [_input_fn(params=None)], given here by its body. *)
Definition dummy_input_fn (features labels : PyVal)
  : TF (PyVal -> TF (PyVal * PyVal)) :=
  ret (fun params : PyVal =>
         x <- tf.constant features (Some "x") ;;
         let input_features := PDict {[ "x" := x ]} in
         input_labels <- tf.constant labels (Some "y") ;;
         ret (input_features, input_labels)).

(** [dataset_input_fn(features=8., labels=9.)] *)
Definition dataset_input_fn (features labels : PyVal)
  : TF (PyVal -> TF (PyVal * PyVal)) :=
  ret (fun params : PyVal =>
         dataset <- tf.Dataset_from_tensors (PList [features]) ;;
         iterator <- tf.make_one_shot_iterator dataset ;;
         input_features <- tf.get_next iterator ;;
         input_labels <-
           (if negb (is_None labels) then
              dataset <- tf.Dataset_from_tensors (PList [labels]) ;;
              iterator <- tf.make_one_shot_iterator dataset ;;
              tf.get_next iterator
            else ret PNone) ;;
         ret (PDict {[ "x" := input_features ]}, input_labels)).

(** The default arguments of the signatures. *)
Module Defaults.
Definition shape : list Z := [].
Definition random_seed : Z := 42.
Definition num_subnetworks : Z := 1.
Definition bias : PyVal := PFloat 0.
Definition features : PyVal := PFloat 8.
Definition labels : PyVal := PFloat 9.
End Defaults.

(** [dummy_ensemble_spec(name)], every other argument at its default. *)
Definition dummy_ensemble_spec_by_default (name : PyVal) : TF _EnsembleSpec.t :=
  dummy_ensemble_spec name Defaults.random_seed Defaults.num_subnetworks
    Defaults.bias PNone PNone PNone false PNone PNone PNone.

(** A state to run the examples in: nothing bound, an empty graph, no
    graph-level seed. *)
Definition empty_world : World := mkWorld ∅ [] None.


(** ** Specification vocabulary for the factories *)

(** [returns m a]: the computation [m] returns [a] from every state. *)
Definition returns {A : Type} (m : TF A) (a : A) : Prop :=
  forall w, result m w = a.


(** [state_independent m]: the value [m] returns does not depend on the
    state it is run in. *)
Definition state_independent {A : Type} (m : TF A) : Prop :=
  forall w w', result m w = result m w'.

(** [keeps_seed m]: running [m] leaves the graph-level seed as it was. *)
Definition keeps_seed {A : Type} (m : TF A) : Prop :=
  forall w, graph_seed (world_after m w) = graph_seed w.


(** [runs seed m a]: in a state whose graph-level seed is [seed], the
    computation [m] returns [a] and leaves that seed in place. *)
Definition runs {A : Type} (seed : option Z) (m : TF A) (a : A) : Prop :=
  forall w,
    graph_seed w = seed ->
    result m w = a /\ graph_seed (world_after m w) = seed.

(** The node [dummy_tensor] returns under a graph-level seed. *)
Definition random_tensor (graph_seed : option Z) (shape : list Z) (seed : Z)
  : PyVal :=
  let seeds := tf_random_seed.get_seed graph_seed seed in
  ReadValue (VariableOp (RandomNormal shape (fst seeds) (snd seeds)) false).

(** Recognises the nodes [dummy_tensor] returns. *)
Definition is_random_tensor (v : PyVal) : bool :=
  match v with
  | ReadValue (VariableOp (RandomNormal _ _ _) false) => true
  | _ => false
  end.

(** The value [_dummy_export_outputs] computes, branch by branch. *)
Definition export_outputs_of (export_output_key logits predictions : PyVal)
  : PyVal :=
  if py_eq_str export_output_key ExportOutputKeys.CLASSIFICATION_CLASSES then
    dict_display export_output_key (ClassificationOutput PNone (AsString logits))
  else if py_eq_str export_output_key ExportOutputKeys.CLASSIFICATION_SCORES then
    dict_display export_output_key (ClassificationOutput logits PNone)
  else if py_eq_str export_output_key ExportOutputKeys.REGRESSION then
    dict_display export_output_key (RegressionOutput logits)
  else if py_eq_str export_output_key ExportOutputKeys.PREDICTION then
    dict_display export_output_key (PredictOutput predictions)
  else if py_eq_str export_output_key ExportOutputKeys.INVALID then
    dict_display export_output_key predictions
  else PNone.

(** The predictions of an ensemble spec. *)
Definition predictions_of (dict_predictions : bool) (logits : PyVal) : PyVal :=
  if dict_predictions
  then PDict (<["logits" := logits]>
               (<["classes" := Cast (Abs logits) int64]> ∅))
  else logits.

(** The one weighted subnetwork [dummy_ensemble_spec] builds. *)
Definition weighted_subnetwork_of (graph_seed : option Z) (name : PyVal)
    (random_seed : Z) : WeightedSubnetwork.t :=
  WeightedSubnetwork.mk name (PInt 1)
    (random_tensor graph_seed [2; 1] (random_seed * 4))
    (random_tensor graph_seed [2; 1] (random_seed * 4))
    (Subnetwork.mk (random_tensor graph_seed [1; 2] (random_seed * 4))
                   (random_tensor graph_seed [2; 1] (random_seed * 4))
                   (PFloat 1) (PDict ∅)).

(** What [tf.convert_to_tensor] returns. *)
Definition converted (value : PyVal) : PyVal :=
  if is_tensor value then value else ConvertToTensor value.

(** The node [Dataset.from_tensors([v]).make_one_shot_iterator().get_next()]. *)
Definition dataset_element (v : PyVal) : PyVal :=
  IteratorGetNext (OneShotIterator (TensorDataset (PList [v]))).

(** What [EstimatorSpec] accepts as a loss, beyond its being a tensor: one
    element, as far as the shape is known. *)
Definition one_element (loss : PyVal) : bool :=
  match shape_of loss with
  | None => true
  | Some shape => Z.eqb (num_elements shape) 1
  end.

(** The loss an [EstimatorSpec] stores: the tensor it is given, reshaped to
    a scalar when its shape is known and is not the scalar one. *)
Definition stored_loss (loss : PyVal) : PyVal :=
  match shape_of loss with
  | Some (_ :: _) => Reshape loss []
  | _ => loss
  end.

(** What [EstimatorSpec] accepts as [eval_metric_ops]. *)
Definition valid_eval_metric_ops (eval_metric_ops : PyVal) : bool :=
  match eval_metric_ops with
  | PNone => true
  | PDict d => EstimatorSpec.all_values EstimatorSpec.is_metric d
  | _ => false
  end.

(** The [eval_metric_ops] an [EstimatorSpec] stores. *)
Definition stored_eval_metric_ops (eval_metric_ops : PyVal) : PyVal :=
  if is_None eval_metric_ops then PDict ∅ else eval_metric_ops.

(** * The test-case base class *)

(** ** Files and directories *)

(** What a path names. *)
Inductive Node : Type := Dir | File.

(** The file system: the nodes below the root, each under the list of the
    components leading to it.  The root is the empty list and is not stored:
    it always is a directory. *)
Abbreviation FS := (gmap (list string) Node).

Definition node_at (fs : FS) (p : list string) : option Node :=
  match p with
  | [] => Some Dir
  | _ => fs !! p
  end.

(** The directory a path lies in. *)
Definition parent (p : list string) : list string := removelast p.

(** A well-formed file system: every node lies in a directory. *)
Definition wf_fs (fs : FS) : Prop :=
  map_Forall (fun p _ => p <> [] /\ node_at fs (parent p) = Some Dir) fs.

(** [below p q]: [q] lies strictly inside [p]. *)
Definition below (p q : list string) : Prop := p `prefix_of` q /\ q <> p.

(** A directory with nothing in it. *)
Definition empty_dir (fs : FS) (p : list string) : Prop :=
  node_at fs p = Some Dir /\ forall q, below p q -> fs !! q = None.

(** The file system without [p] and everything inside it. *)
Definition remove_tree (p : list string) (fs : FS) : FS :=
  filter (fun entry => ~ p `prefix_of` entry.1) fs.

(** ** The [IO] monad *)

(** The attributes of a test-case instance the class deals with: the test's
    id, as [self.id()] returns it, and [self.test_subdirectory], which does
    not exist before [setUp] assigns it. *)
Record Instance : Type := mkInstance {
  test_id : string;
  test_subdirectory : option string
}.

(** What a method of the test case acts on: the file system and the
    instance. *)
Record Env : Type := mkEnv {
  filesystem : FS;
  self : Instance
}.

(** A computation returns or raises, and leaves a state either way. *)
Definition IO (A : Type) : Type := Env -> Outcome A * Env.

Definition io_ret {A : Type} (a : A) : IO A := fun env => (Returned a, env).

Definition io_bind {A B : Type} (m : IO A) (k : A -> IO B) : IO B :=
  fun env =>
    match m env with
    | (Returned a, env') => k a env'
    | (Raised e, env') => (Raised e, env')
    end.

Definition raise {A : Type} (e : Exception) : IO A :=
  fun env => (Raised e, env).

(** [try: m  except <handled>: pass] *)
Definition try_except_pass (m : IO unit) (handled : Exception -> bool)
  : IO unit :=
  fun env =>
    match m env with
    | (Raised e, env') =>
        if handled e then (Returned tt, env') else (Raised e, env')
    | returned => returned
    end.

Declare Scope io_scope.
Delimit Scope io_scope with io.
Notation "x <- m ;; k" := (io_bind m (fun x => k))
  (at level 100, m at next level, right associativity) : io_scope.

Definition get_filesystem : IO FS := fun env => (Returned (filesystem env), env).

Definition put_filesystem (fs : FS) : IO unit :=
  fun env => (Returned tt, mkEnv fs (self env)).

(** ** The library calls: [os.path], [os], [shutil] *)

(** [s.endswith("/")] *)
Fixpoint endswith_sep (s : string) : bool :=
  match s with
  | EmptyString => false
  | String c EmptyString => Ascii.eqb c "/"
  | String _ rest => endswith_sep rest
  end.

(** [os.path.join(a, b)] of [posixpath]: an absolute [b] replaces [a];
    otherwise [b] is appended, after a separator unless [a] is empty or
    ends with one. *)
Definition os_path_join (a b : string) : string :=
  if String.prefix "/" b then b
  else if String.eqb a "" || endswith_sep a then a +:+ b
  else a +:+ "/" +:+ b.

Section Calls.

(** How the operating system reads a path string: the components from the
    root to the node it names. *)
Variable resolve : string -> list string.

Local Open Scope io_scope.

(** [os.path.exists] *)
Definition path_exists (p : list string) : IO bool :=
  fs <- get_filesystem ;;
  io_ret (bool_decide (is_Some (node_at fs p))).

(** [os.mkdir]: the path must be free and lie in a directory. *)
Definition mkdir (p : list string) : IO unit :=
  fs <- get_filesystem ;;
  match node_at fs p with
  | Some _ => raise FileExistsError
  | None =>
      match node_at fs (parent p) with
      | Some Dir => put_filesystem (<[p := Dir]> fs)
      | Some File => raise NotADirectoryError
      | None => raise FileNotFoundError
      end
  end.

(** [os.makedirs(name)], by recursion on the path split into head and tail
    as in the library; the components come innermost first, so that the
    head is the structurally smaller argument. *)
Fixpoint makedirs_rev (rname : list string) : IO unit :=
  match rname with
  | [] => mkdir []
  | tail :: rhead =>
      head_exists <- path_exists (rev rhead) ;;
      _ <- (if negb head_exists
            then try_except_pass (makedirs_rev rhead)
                   (fun e => match e with FileExistsError => true | _ => false end)
            else io_ret tt) ;;
      mkdir (rev (tail :: rhead))
  end.

Definition os_makedirs (name : string) : IO unit :=
  makedirs_rev (rev (resolve name)).

(** [shutil.rmtree(path)] with the default [ignore_errors=False]: removes a
    directory and what it holds; anything else is an error. *)
Definition rmtree_strict (p : list string) : IO unit :=
  fs <- get_filesystem ;;
  match node_at fs p with
  | Some Dir => put_filesystem (remove_tree p fs)
  | Some File => raise NotADirectoryError
  | None => raise FileNotFoundError
  end.

(** [shutil.rmtree(path, ignore_errors)] *)
Definition shutil_rmtree (path : string) (ignore_errors : bool) : IO unit :=
  if ignore_errors
  then try_except_pass (rmtree_strict (resolve path)) (fun _ => true)
  else rmtree_strict (resolve path).

End Calls.

(** ** [class AdanetTestCase] *)

Module AdanetTestCase.
Section Methods.

Variable resolve : string -> list string.

(** [tf.flags.FLAGS.test_tmpdir] *)
Variable test_tmpdir : string.

(** [setUp] and [tearDown] of the base classes
    ([parameterized.TestCase], [tf.test.TestCase]). *)
Variable base_setUp : IO unit.
Variable base_tearDown : IO unit.

Local Open Scope io_scope.

(** [self.id()] *)
Definition self_id : IO string :=
  fun env => (Returned (test_id (self env)), env).

(** [self.test_subdirectory = value] *)
Definition set_test_subdirectory (value : string) : IO unit :=
  fun env =>
    (Returned tt,
     mkEnv (filesystem env) (mkInstance (test_id (self env)) (Some value))).

(** [self.test_subdirectory]: reading an attribute that was never assigned
    raises. *)
Definition get_test_subdirectory : IO string :=
  fun env =>
    match test_subdirectory (self env) with
    | Some value => (Returned value, env)
    | None => (Raised AttributeError, env)
    end.

Definition setUp : IO unit :=
  _ <- base_setUp ;;
  id <- self_id ;;
  _ <- set_test_subdirectory (os_path_join test_tmpdir id) ;;
  path <- get_test_subdirectory ;;
  _ <- shutil_rmtree resolve path true ;;
  path <- get_test_subdirectory ;;
  os_makedirs resolve path.

Definition tearDown : IO unit :=
  _ <- base_tearDown ;;
  path <- get_test_subdirectory ;;
  shutil_rmtree resolve path true.

End Methods.
End AdanetTestCase.

(** A reading of path strings for the examples: the components between the
    separators. *)
Fixpoint split_path_from (component : string) (s : string) : list string :=
  match s with
  | EmptyString => if String.eqb component "" then [] else [component]
  | String c rest =>
      if Ascii.eqb c "/"
      then (if String.eqb component "" then [] else [component])
             ++ split_path_from "" rest
      else split_path_from (component +:+ String c EmptyString) rest
  end.

Definition split_path (s : string) : list string := split_path_from "" s.



(** [grows_along p fs fs']: from [fs] to [fs'] nothing changed but for
    directories created, where there was nothing, on the way to [p]. *)
Definition grows_along (p : list string) (fs fs' : FS) : Prop :=
  forall q,
    fs' !! q = fs !! q
    \/ (q `prefix_of` p /\ fs !! q = None /\ fs' !! q = Some Dir).


(** The state [shutil.rmtree(path, ignore_errors=True)] leaves. *)
Definition after_rmtree (p : list string) (fs : FS) : FS :=
  match node_at fs p with
  | Some Dir => remove_tree p fs
  | _ => fs
  end.

(** A file system and a test for the examples: a temporary directory that
    still holds the directory of an earlier run of the test, with a file in
    it. *)
Definition example_fs : FS :=
  <[ ["tmp"; "suite.Test.test_x"; "stale"] := File ]>
    (<[ ["tmp"; "suite.Test.test_x"] := Dir ]> (<[ ["tmp"] := Dir ]> ∅)).

Definition example_env : Env :=
  mkEnv example_fs (mkInstance "suite.Test.test_x" None).

(** * Further vocabulary *)

(** [tf.losses.Reduction] *)
Module Reduction.
Inductive t : Type :=
  | NONE
  | SUM
  | MEAN
  | SUM_OVER_BATCH_SIZE
  | SUM_OVER_NONZERO_WEIGHTS
  | SUM_BY_NONZERO_WEIGHTS.
End Reduction.

(** The head object [tf.contrib.estimator.regression_head] builds; building
    it adds nothing to the graph. *)
Inductive Head : Type := regression_head (loss_reduction : Reduction.t).

(** [head()] *)
Definition head : TF Head :=
  ret (regression_head Reduction.SUM_OVER_BATCH_SIZE).

(** [extends_graph m]: running [m] keeps the nodes of the default graph, in
    their order, and may add nodes after them. *)
Definition extends_graph {A : Type} (m : TF A) : Prop :=
  forall w, default_graph w `prefix_of` default_graph (world_after m w).

(** The pair of seeds the random op under a random tensor carries: the
    graph-level one and the op-level one, as [get_seed] derives them.  Two
    ops with the same pair draw the same values. *)
Definition op_seeds_of (v : PyVal) : option (Z * Z) :=
  match v with
  | ReadValue (VariableOp (RandomNormal _ seed seed2) _) => Some (seed, seed2)
  | _ => None
  end.

(** The keys of a dictionary. *)
Definition keys_of (v : PyVal) : gset string :=
  match v with
  | PDict d => dom d
  | _ => ∅
  end.

(** [d[k]] on a dictionary, where the key is present. *)
Definition item_of (v : PyVal) (k : string) : option PyVal :=
  match v with
  | PDict d => d !! k
  | _ => None
  end.


(** the directories of two tests side by side: *)
Definition example_shared_env : Env :=
  mkEnv
    (<[ ["tmp"; "suite.Test.test_y"; "keep"] := File ]>
       (<[ ["tmp"; "suite.Test.test_y"] := Dir ]> example_fs))
    (mkInstance "suite.Test.test_x" None).

(** no temporary directory yet: *)
Definition example_bare_env : Env :=
  mkEnv ∅ (mkInstance "suite.Test.test_x" None).

(** * Properties of the factories *)

(** ** Reasoning about [TF] computations *)

Lemma result_bind {A B : Type} (m : TF A) (k : A -> TF B) (w : World) :
  result (bind m k) w = result (k (result m w)) (world_after m w).
Proof. unfold result, world_after, bind. destruct (m w); reflexivity. Qed.

Lemma world_after_bind {A B : Type} (m : TF A) (k : A -> TF B) (w : World) :
  world_after (bind m k) w = world_after (k (result m w)) (world_after m w).
Proof. unfold result, world_after, bind. destruct (m w); reflexivity. Qed.

Lemma returns_ret {A : Type} (a : A) : returns (ret a) a.
Proof. intros w; reflexivity. Qed.

Lemma returns_bind {A B : Type} (m : TF A) (k : A -> TF B) (a : A) (b : B) :
  returns m a -> returns (k a) b -> returns (bind m k) b.
Proof. intros Hm Hk w. rewrite result_bind, Hm. apply Hk. Qed.

Lemma returns_add_to_graph (node : PyVal) : returns (add_to_graph node) node.
Proof. intros w; reflexivity. Qed.


(** *** The graph-level seed *)

Lemma keeps_seed_ret {A : Type} (a : A) : keeps_seed (ret a).
Proof. intros w; reflexivity. Qed.

Lemma keeps_seed_add_to_graph (node : PyVal) : keeps_seed (add_to_graph node).
Proof. intros w; reflexivity. Qed.

Lemma keeps_seed_random_normal (shape : list Z) (seed : Z) :
  keeps_seed (tf.random_normal shape seed).
Proof. intros w; reflexivity. Qed.

Lemma keeps_seed_convert_to_tensor (value : PyVal) :
  keeps_seed (tf.convert_to_tensor value).
Proof.
  unfold tf.convert_to_tensor. destruct (is_tensor value); intros w; reflexivity.
Qed.

Lemma keeps_seed_bind {A B : Type} (m : TF A) (k : A -> TF B) :
  keeps_seed m -> (forall a, keeps_seed (k a)) -> keeps_seed (bind m k).
Proof. intros Hm Hk w. rewrite world_after_bind, Hk. apply Hm. Qed.

Lemma keeps_seed_if {A : Type} (b : bool) (m1 m2 : TF A) :
  keeps_seed m1 -> keeps_seed m2 -> keeps_seed (if b then m1 else m2).
Proof. destruct b; auto. Qed.

Lemma runs_intro {A : Type} (seed : option Z) (m : TF A) (a : A) :
  (forall w, graph_seed w = seed -> result m w = a) -> keeps_seed m ->
  runs seed m a.
Proof. intros Hres Hkeep w Hw. split; [auto | rewrite Hkeep; exact Hw]. Qed.

Lemma runs_returns {A : Type} (seed : option Z) (m : TF A) (a : A) :
  returns m a -> keeps_seed m -> runs seed m a.
Proof. intros Hres Hkeep. apply runs_intro; auto. Qed.

Lemma runs_ret {A : Type} (seed : option Z) (a : A) : runs seed (ret a) a.
Proof. apply runs_returns; [apply returns_ret | apply keeps_seed_ret]. Qed.

Lemma runs_add_to_graph (seed : option Z) (node : PyVal) :
  runs seed (add_to_graph node) node.
Proof.
  apply runs_returns; [apply returns_add_to_graph | apply keeps_seed_add_to_graph].
Qed.

Lemma runs_bind {A B : Type} (seed : option Z) (m : TF A) (k : A -> TF B)
    (a : A) (b : B) :
  runs seed m a -> runs seed (k a) b -> runs seed (bind m k) b.
Proof.
  intros Hm Hk w Hw. destruct (Hm w Hw) as [Hres Hseed].
  rewrite result_bind, world_after_bind, Hres. apply Hk, Hseed.
Qed.

(** *** The module's bindings *)







(** Steps through a computation whose value is being established under a
    given graph-level seed. *)
Ltac tf_run_step :=
  first
    [ apply runs_ret
    | apply runs_add_to_graph
    | eapply runs_bind; [ | cbv beta ] ].

(** ** The factories, step by step *)

Lemma dummy_tensor_returns (shape : list Z) (random_seed : Z) (w : World) :
  result (dummy_tensor shape random_seed) w
  = random_tensor (graph_seed w) shape random_seed.
Proof. reflexivity. Qed.

Lemma dummy_tensor_keeps_seed (shape : list Z) (random_seed : Z) :
  keeps_seed (dummy_tensor shape random_seed).
Proof. intros w; reflexivity. Qed.

Lemma dummy_tensor_runs (seed : option Z) (shape : list Z) (random_seed : Z) :
  runs seed (dummy_tensor shape random_seed)
    (random_tensor seed shape random_seed).
Proof.
  apply runs_intro; [ | apply dummy_tensor_keeps_seed].
  intros w <-. reflexivity.
Qed.


Lemma convert_to_tensor_returns (value : PyVal) :
  returns (tf.convert_to_tensor value) (converted value).
Proof.
  unfold tf.convert_to_tensor, converted.
  destruct (is_tensor value); intros w; reflexivity.
Qed.

Lemma _dummy_export_outputs_returns (key logits predictions : PyVal) :
  returns (_dummy_export_outputs key logits predictions)
          (export_outputs_of key logits predictions).
Proof.
  unfold _dummy_export_outputs, export_outputs_of.
  repeat match goal with
         | |- context [if ?b then _ else _] => destruct b
         end; intros w; reflexivity.
Qed.


Lemma _dummy_export_outputs_keeps_seed (key logits predictions : PyVal) :
  keeps_seed (_dummy_export_outputs key logits predictions).
Proof.
  unfold _dummy_export_outputs.
  repeat match goal with
         | |- context [if ?b then _ else _] => destruct b
         end; intros w; reflexivity.
Qed.


(** The same for the graph-level seed. *)
Ltac tf_keeps_seed :=
  repeat lazymatch goal with
    | |- keeps_seed (ret _) => apply keeps_seed_ret
    | |- keeps_seed (bind _ _) => apply keeps_seed_bind; [ | intro ]
    | |- keeps_seed (if _ then _ else _) => apply keeps_seed_if
    | |- keeps_seed (dummy_tensor _ _) => apply dummy_tensor_keeps_seed
    | |- keeps_seed (_dummy_export_outputs _ _ _) =>
        apply _dummy_export_outputs_keeps_seed
    | |- keeps_seed (tf.random_normal _ _) => apply keeps_seed_random_normal
    | |- keeps_seed (tf.convert_to_tensor _) =>
        apply keeps_seed_convert_to_tensor
    | |- keeps_seed _ => apply keeps_seed_add_to_graph
    end.

Lemma dummy_ensemble_spec_keeps_seed
    (name : PyVal) (random_seed num_subnetworks : Z)
    (bias loss adanet_loss eval_metrics : PyVal) (dict_predictions : bool)
    (export_output_key subnetwork_builders train_op : PyVal) :
  keeps_seed
    (dummy_ensemble_spec name random_seed num_subnetworks bias loss
       adanet_loss eval_metrics dict_predictions export_output_key
       subnetwork_builders train_op).
Proof. unfold dummy_ensemble_spec. tf_keeps_seed. Qed.

(** The value of a call to [dummy_ensemble_spec], field by field, under a
    given graph-level seed. *)
Lemma dummy_ensemble_spec_runs (seed : option Z)
    (name : PyVal) (random_seed num_subnetworks : Z)
    (bias loss adanet_loss eval_metrics : PyVal) (dict_predictions : bool)
    (export_output_key subnetwork_builders train_op : PyVal) :
  let logits := random_tensor seed [] (random_seed * 3) in
  let predictions := predictions_of dict_predictions logits in
  runs seed
    (dummy_ensemble_spec name random_seed num_subnetworks bias loss
       adanet_loss eval_metrics dict_predictions export_output_key
       subnetwork_builders train_op)
    (_EnsembleSpec.mk name
       (ComplexityRegularized.mk
          (list_mul [weighted_subnetwork_of seed name random_seed]
             num_subnetworks)
          (Const bias None) logits)
       new_Architecture subnetwork_builders predictions
       (if is_None loss then random_tensor seed [] random_seed else loss)
       (if is_None adanet_loss then random_tensor seed [] (random_seed * 2)
        else converted adanet_loss)
       train_op eval_metrics
       (export_outputs_of export_output_key logits predictions)).
Proof.
  intros logits predictions. unfold dummy_ensemble_spec.
  eapply runs_bind.
  { instantiate (1 := if is_None loss then _ else _).
    destruct (is_None loss); [apply dummy_tensor_runs | apply runs_ret]. }
  eapply runs_bind.
  { instantiate (1 := if is_None adanet_loss then _ else _).
    destruct (is_None adanet_loss); [apply dummy_tensor_runs | ].
    apply runs_returns;
      [apply convert_to_tensor_returns | apply keeps_seed_convert_to_tensor]. }
  eapply runs_bind; [apply dummy_tensor_runs | cbv beta].
  eapply runs_bind.
  { instantiate (1 := predictions). unfold predictions, predictions_of.
    destruct dict_predictions; [ | apply runs_ret].
    repeat tf_run_step. }
  do 4 (eapply runs_bind; [apply dummy_tensor_runs | cbv beta]).
  eapply runs_bind.
  { apply runs_returns;
      [apply _dummy_export_outputs_returns
      | apply _dummy_export_outputs_keeps_seed]. }
  cbv beta.
  eapply runs_bind; [apply runs_add_to_graph | cbv beta].
  apply runs_ret.
Qed.

(** The value of a call to [dummy_ensemble_spec] from a given state. *)
Lemma dummy_ensemble_spec_returns
    (name : PyVal) (random_seed num_subnetworks : Z)
    (bias loss adanet_loss eval_metrics : PyVal) (dict_predictions : bool)
    (export_output_key subnetwork_builders train_op : PyVal) (w : World) :
  let logits := random_tensor (graph_seed w) [] (random_seed * 3) in
  let predictions := predictions_of dict_predictions logits in
  result
    (dummy_ensemble_spec name random_seed num_subnetworks bias loss
       adanet_loss eval_metrics dict_predictions export_output_key
       subnetwork_builders train_op) w
  = _EnsembleSpec.mk name
      (ComplexityRegularized.mk
         (list_mul [weighted_subnetwork_of (graph_seed w) name random_seed]
            num_subnetworks)
         (Const bias None) logits)
      new_Architecture subnetwork_builders predictions
      (if is_None loss then random_tensor (graph_seed w) [] random_seed
       else loss)
      (if is_None adanet_loss
       then random_tensor (graph_seed w) [] (random_seed * 2)
       else converted adanet_loss)
      train_op eval_metrics
      (export_outputs_of export_output_key logits predictions).
Proof.
  intros logits predictions.
  apply (dummy_ensemble_spec_runs (graph_seed w) name random_seed
           num_subnetworks bias loss adanet_loss eval_metrics
           dict_predictions export_output_key subnetwork_builders train_op w).
  reflexivity.
Qed.


(** ** The constructor of [EstimatorSpec] *)

(** Splits the validation of the constructor into its cases. *)
Ltac estimator_spec_cases :=
  unfold EstimatorSpec.new, EstimatorSpec.check_loss;
  repeat match goal with
         | |- context [match ?x with _ => _ end] =>
             lazymatch x with
             | context [match _ with _ => _ end] => fail
             | _ => destruct x
             end
         end.


Lemma new_keeps_seed (mode : string)
    (predictions loss train_op eval_metric_ops : PyVal) :
  keeps_seed (EstimatorSpec.new mode predictions loss train_op eval_metric_ops).
Proof. estimator_spec_cases; intros w; reflexivity. Qed.

Lemma new_state_independent (mode : string)
    (predictions loss train_op eval_metric_ops : PyVal) :
  state_independent
    (EstimatorSpec.new mode predictions loss train_op eval_metric_ops).
Proof. estimator_spec_cases; intros w w'; reflexivity. Qed.

(** The outcome of the constructor in training mode, with predictions that
    are a tensor and a train op that is the no-op. *)
Lemma new_train_outcome (predictions loss eval_metric_ops : PyVal) (w : World) :
  is_tensor predictions = true ->
  result
    (EstimatorSpec.new ModeKeys.TRAIN predictions loss NoOp eval_metric_ops) w
  = if is_None loss then Raised ValueError
    else if negb (is_tensor loss) then Raised TypeError
    else if negb (one_element loss) then Raised ValueError
    else if negb (valid_eval_metric_ops eval_metric_ops) then Raised TypeError
    else Returned
           (EstimatorSpec.mk ModeKeys.TRAIN predictions (stored_loss loss) NoOp
              (stored_eval_metric_ops eval_metric_ops)).
Proof.
  intros Hpredictions.
  assert (Hcheck : EstimatorSpec.check_predictions ModeKeys.TRAIN predictions
                   = Returned predictions).
  { destruct predictions; try discriminate Hpredictions; reflexivity. }
  assert (Hmetrics : EstimatorSpec.check_eval_metric_ops eval_metric_ops
                     = if valid_eval_metric_ops eval_metric_ops
                       then Returned (stored_eval_metric_ops eval_metric_ops)
                       else Raised TypeError).
  { destruct eval_metric_ops; reflexivity. }
  unfold EstimatorSpec.new, EstimatorSpec.check_loss, one_element, stored_loss.
  change (EstimatorSpec.check_train_op ModeKeys.TRAIN NoOp)
    with (@Returned PyVal NoOp).
  cbv iota beta. rewrite result_bind.
  destruct (is_None loss); [reflexivity | ].
  destruct (is_tensor loss); [ | reflexivity]. cbn [negb].
  destruct (shape_of loss) as [[ | d shape] | ].
  - cbn. rewrite Hcheck, Hmetrics.
    destruct (valid_eval_metric_ops eval_metric_ops); reflexivity.
  - destruct (Z.eqb (num_elements (d :: shape)) 1); [ | reflexivity].
    cbn. rewrite Hcheck, Hmetrics.
    destruct (valid_eval_metric_ops eval_metric_ops); reflexivity.
  - cbn. rewrite Hcheck, Hmetrics.
    destruct (valid_eval_metric_ops eval_metric_ops); reflexivity.
Qed.

Lemma random_tensor_is_tensor (seed : option Z) (shape : list Z)
    (random_seed : Z) :
  is_tensor (random_tensor seed shape random_seed) = true.
Proof. reflexivity. Qed.

Lemma random_tensor_shape (seed : option Z) (shape : list Z)
    (random_seed : Z) :
  shape_of (random_tensor seed shape random_seed) = Some shape.
Proof. reflexivity. Qed.

(** The loss [dummy_estimator_spec] hands to the constructor. *)
Lemma dummy_estimator_spec_returns (loss : PyVal) (random_seed : Z)
    (eval_metric_ops : PyVal) (w : World) :
  result (dummy_estimator_spec loss random_seed eval_metric_ops) w
  = result
      (EstimatorSpec.new ModeKeys.TRAIN
         (random_tensor (graph_seed w) [] (random_seed * 2))
         (if is_None loss then random_tensor (graph_seed w) [] random_seed
          else loss)
         NoOp eval_metric_ops) w.
Proof.
  unfold dummy_estimator_spec.
  rewrite result_bind, result_bind, result_bind.
  assert (Hseed : graph_seed
                    (world_after
                       (if is_None loss then dummy_tensor [] random_seed
                        else ret loss) w) = graph_seed w).
  { destruct (is_None loss); reflexivity. }
  rewrite dummy_tensor_returns, Hseed.
  replace (result (if is_None loss then dummy_tensor [] random_seed
                   else ret loss) w)
    with (if is_None loss then random_tensor (graph_seed w) [] random_seed
          else loss)
    by (destruct (is_None loss); reflexivity).
  apply new_state_independent.
Qed.

(** The outcome of [dummy_estimator_spec], case by case. *)
Lemma dummy_estimator_spec_outcome (loss : PyVal) (random_seed : Z)
    (eval_metric_ops : PyVal) (w : World) :
  let predictions := random_tensor (graph_seed w) [] (random_seed * 2) in
  let loss' :=
    if is_None loss then random_tensor (graph_seed w) [] random_seed
    else loss in
  result (dummy_estimator_spec loss random_seed eval_metric_ops) w
  = if negb (is_tensor loss') then Raised TypeError
    else if negb (one_element loss') then Raised ValueError
    else if negb (valid_eval_metric_ops eval_metric_ops) then Raised TypeError
    else Returned
           (EstimatorSpec.mk ModeKeys.TRAIN predictions (stored_loss loss') NoOp
              (stored_eval_metric_ops eval_metric_ops)).
Proof.
  intros predictions loss'.
  rewrite dummy_estimator_spec_returns.
  rewrite new_train_outcome by apply random_tensor_is_tensor.
  fold loss'.
  assert (Hloss : is_None loss' = false).
  { unfold loss'. destruct (is_None loss) eqn:E; [reflexivity | exact E]. }
  rewrite Hloss. reflexivity.
Qed.

(** What a spec that [dummy_estimator_spec] returned holds. *)
Lemma dummy_estimator_spec_returned (loss : PyVal) (random_seed : Z)
    (eval_metric_ops : PyVal) (w : World) (spec : EstimatorSpec.t) :
  result (dummy_estimator_spec loss random_seed eval_metric_ops) w
  = Returned spec ->
  EstimatorSpec.mode spec = ModeKeys.TRAIN
  /\ EstimatorSpec.predictions spec
     = random_tensor (graph_seed w) [] (random_seed * 2)
  /\ EstimatorSpec.train_op spec = NoOp
  /\ (loss = PNone ->
      EstimatorSpec.loss spec = random_tensor (graph_seed w) [] random_seed).
Proof.
  rewrite (dummy_estimator_spec_outcome _ _ _ w).
  destruct (is_tensor _); cbn [negb]; [ | discriminate].
  destruct (one_element _); cbn [negb]; [ | discriminate].
  destruct (valid_eval_metric_ops _); cbn [negb]; [ | discriminate].
  intros [= <-]. cbn.
  split; [reflexivity | split; [reflexivity | split; [reflexivity | ]]].
  intros ->. reflexivity.
Qed.


Lemma dummy_estimator_spec_keeps_seed (loss : PyVal) (random_seed : Z)
    (eval_metric_ops : PyVal) :
  keeps_seed (dummy_estimator_spec loss random_seed eval_metric_ops).
Proof.
  unfold dummy_estimator_spec.
  repeat first [ apply new_keeps_seed | progress tf_keeps_seed ].
Qed.

(** ** The input functions *)



Lemma dataset_input_fn_call_returns (features labels params : PyVal)
    (w : World) :
  returns (result (dataset_input_fn features labels) w params)
    (PDict {[ "x" := dataset_element features ]},
     if is_None labels then PNone else dataset_element labels).
Proof. intros w'; destruct labels; reflexivity. Qed.


(** ** Small facts about Python values *)

Lemma is_None_true (v : PyVal) : is_None v = true <-> v = PNone.
Proof. destruct v; simpl; split; congruence. Qed.

Lemma is_None_false (v : PyVal) : is_None v = false <-> v <> PNone.
Proof. destruct v; simpl; split; congruence. Qed.

Lemma py_eq_str_true (v : PyVal) (s : string) :
  py_eq_str v s = true <-> v = PStr s.
Proof.
  destruct v; simpl; try (split; congruence).
  rewrite String.eqb_eq. split; congruence.
Qed.

Lemma py_eq_str_false (v : PyVal) (s : string) :
  py_eq_str v s = false <-> v <> PStr s.
Proof.
  rewrite <- py_eq_str_true. destruct (py_eq_str v s); split; congruence.
Qed.

(** Repeating a one-element list. *)
Lemma list_mul_singleton {A : Type} (x : A) (n : Z) :
  list_mul [x] n = replicate (Z.to_nat n) x.
Proof.
  unfold list_mul. induction (Z.to_nat n) as [|k IH]; simpl.
  - reflexivity.
  - rewrite IH. reflexivity.
Qed.

Lemma list_mul_nonpositive {A : Type} (l : list A) (n : Z) :
  n <= 0 -> list_mul l n = [].
Proof.
  intros Hn. unfold list_mul.
  replace (Z.to_nat n) with 0%nat by lia. reflexivity.
Qed.

(** ** The factories at work *)

(** A call to [dummy_tensor] adds three nodes to the default graph and
    returns the last one. *)
Example dummy_tensor_default_call :
  dummy_tensor Defaults.shape Defaults.random_seed empty_world
  = (ReadValue (VariableOp (RandomNormal [] 87654321 42) false),
     mkWorld ∅
       [RandomNormal [] 87654321 42;
        VariableOp (RandomNormal [] 87654321 42) false;
        ReadValue (VariableOp (RandomNormal [] 87654321 42) false)]
       None).
Proof. reflexivity. Qed.

(** After [tf.set_random_seed(1)] the same call draws from another stream. *)
Example dummy_tensor_under_a_graph_seed :
  result (dummy_tensor Defaults.shape Defaults.random_seed)
    (mkWorld ∅ [] (Some 1))
  = ReadValue (VariableOp (RandomNormal [] 1 42) false).
Proof. reflexivity. Qed.

(** The op-level seed is reduced modulo [2^31 - 1]. *)
Example dummy_tensor_with_a_large_seed :
  result (dummy_tensor [] 2147483647) empty_world
  = ReadValue (VariableOp (RandomNormal [] 87654321 0) false).
Proof. reflexivity. Qed.

(** The seeds of an ensemble spec: the logits use three times the seed. *)
Example dummy_ensemble_spec_default_logits :
  ComplexityRegularized.logits
    (_EnsembleSpec.ensemble
       (result (dummy_ensemble_spec_by_default (PStr "ensemble")) empty_world))
  = random_tensor None [] 126.
Proof. reflexivity. Qed.

(** The recognised keys wrap the logits or the predictions in an
    export-output object. *)
Example regression_key_wraps_logits (logits predictions : PyVal) :
  result (_dummy_export_outputs (PStr "regression") logits predictions)
    empty_world
  = PDict {[ "regression" := RegressionOutput logits ]}.
Proof. reflexivity. Qed.

(** A negative number of subnetworks gives an empty ensemble. *)
Example negative_num_subnetworks :
  ComplexityRegularized.weighted_subnetworks
    (_EnsembleSpec.ensemble
       (result (dummy_ensemble_spec (PStr "ensemble") 42 (-2) (PFloat 0) PNone
                  PNone PNone false PNone PNone PNone) empty_world))
  = [].
Proof. reflexivity. Qed.

(** Without labels the dataset input function returns [None] for them. *)
Example dataset_input_fn_without_labels :
  result (result (dataset_input_fn Defaults.features PNone) empty_world PNone)
    empty_world
  = (PDict {[ "x" := dataset_element (PFloat 8) ]}, PNone).
Proof. reflexivity. Qed.

(** With the default arguments [dummy_estimator_spec] returns a spec. *)
Example dummy_estimator_spec_default_call :
  result (dummy_estimator_spec PNone 42 PNone) empty_world
  = Returned
      (EstimatorSpec.mk "train" (random_tensor None [] 84)
         (random_tensor None [] 42) NoOp (PDict ∅)).
Proof. reflexivity. Qed.

(** A Python float as the loss is rejected by [EstimatorSpec]. *)
Example dummy_estimator_spec_with_a_float_loss :
  result (dummy_estimator_spec (PFloat 0.5) 42 PNone) empty_world
  = Raised TypeError.
Proof. reflexivity. Qed.

(** So is [eval_metric_ops] that is not a dictionary. *)
Example dummy_estimator_spec_with_metrics_not_a_dict :
  result (dummy_estimator_spec PNone 42 (PInt 3)) empty_world
  = Raised TypeError.
Proof. reflexivity. Qed.

(** ** The claims about the factories *)

(** C1. For every name, logits and predictions, [dummy_ensemble_spec] called
    with [export_output_key] equal to [ExportOutputKeys.INVALID] ("invalid")
    returns normally: the result is a spec whose [export_outputs] is the
    dictionary mapping "invalid" to the raw predictions value, which is not
    an export-output object.  The helper [_dummy_export_outputs] does so for
    arbitrary logits and predictions. *)
Theorem invalid_key_yields_raw_predictions_stub
    (name : PyVal) (random_seed num_subnetworks : Z)
    (bias loss adanet_loss eval_metrics : PyVal) (dict_predictions : bool)
    (subnetwork_builders train_op : PyVal) (w : World) :
  let spec :=
    result (dummy_ensemble_spec name random_seed num_subnetworks bias loss
              adanet_loss eval_metrics dict_predictions
              (PStr ExportOutputKeys.INVALID) subnetwork_builders train_op) w
  in
  (forall logits predictions w',
     result (_dummy_export_outputs (PStr ExportOutputKeys.INVALID)
               logits predictions) w'
     = PDict {[ "invalid" := predictions ]})
  /\ _EnsembleSpec.export_outputs spec
     = PDict {[ "invalid" := _EnsembleSpec.predictions spec ]}
  /\ is_export_output (_EnsembleSpec.predictions spec) = false.
Proof.
  intros spec. split; [ | split].
  - intros logits predictions w'.
    rewrite (_dummy_export_outputs_returns _ _ _ w'). reflexivity.
  - unfold spec. rewrite (dummy_ensemble_spec_returns _ _ _ _ _ _ _ _ _ _ _ w).
    reflexivity.
  - unfold spec. rewrite (dummy_ensemble_spec_returns _ _ _ _ _ _ _ _ _ _ _ w).
    destruct dict_predictions; reflexivity.
Qed.




(** C5. [dummy_input_fn(features, labels)] returns a function that, for any
    [params] (which it ignores), returns the pair of the dictionary
    [{"x": tf.constant(features)}] and [tf.constant(labels)]. *)
Theorem dummy_input_fn_returns_constant_pair
    (features labels params : PyVal) (w w' : World) :
  let _input_fn := result (dummy_input_fn features labels) w in
  result (_input_fn params) w'
  = (PDict {[ "x" := result (tf.constant features (Some "x")) w' ]},
     result (tf.constant labels (Some "y")) w')
  /\ result (_input_fn params) w' = result (_input_fn PNone) w'.
Proof. split; reflexivity. Qed.

(** C6, as stated (it does not hold): each field of the weighted-subnetwork
    records built by [dummy_ensemble_spec], nested subnetwork included, is a
    randomly initialized tensor.  With the default arguments the record has
    fields that are not, such as the complexity, which is the float 1.0. *)
Lemma weighted_subnetwork_has_non_tensor_fields :
  ~ (forall ws,
       In ws (ComplexityRegularized.weighted_subnetworks
                (_EnsembleSpec.ensemble
                   (result (dummy_ensemble_spec_by_default (PStr "ensemble"))
                      empty_world))) ->
       forall field, In field (WeightedSubnetwork.fields ws) ->
                     is_random_tensor (snd field) = true).
Proof.
  intros H.
  assert (Hin : In (weighted_subnetwork_of None (PStr "ensemble") 42)
                  (ComplexityRegularized.weighted_subnetworks
                     (_EnsembleSpec.ensemble
                        (result
                           (dummy_ensemble_spec_by_default (PStr "ensemble"))
                           empty_world)))).
  { vm_compute. left. reflexivity. }
  assert (Hfield : In ("complexity", PFloat 1)
                     (WeightedSubnetwork.fields
                        (weighted_subnetwork_of None (PStr "ensemble") 42))).
  { simpl. do 6 right. left. reflexivity. }
  specialize (H _ Hin _ Hfield). discriminate H.
Qed.

(** C6, amended.  In every weighted-subnetwork record built by
    [dummy_ensemble_spec] the four tensor fields ([logits], [weight], and
    the nested subnetwork's [last_layer] and [logits]) are randomly
    initialized tensors made by [dummy_tensor] from [random_seed * 4]; the
    other fields are plain values: [name] is the given name,
    [iteration_number] is 1, [complexity] is 1.0 and [persisted_tensors] is
    the empty dictionary. *)
Theorem weighted_subnetwork_tensor_fields_are_random
    (name : PyVal) (random_seed num_subnetworks : Z)
    (bias loss adanet_loss eval_metrics : PyVal) (dict_predictions : bool)
    (export_output_key subnetwork_builders train_op : PyVal) (w : World) :
  Forall
    (fun ws =>
       let sub := WeightedSubnetwork.subnetwork ws in
       (WeightedSubnetwork.logits ws
        = result (dummy_tensor [2; 1] (random_seed * 4)) w
        /\ WeightedSubnetwork.weight ws
           = result (dummy_tensor [2; 1] (random_seed * 4)) w
        /\ Subnetwork.last_layer sub
           = result (dummy_tensor [1; 2] (random_seed * 4)) w
        /\ Subnetwork.logits sub
           = result (dummy_tensor [2; 1] (random_seed * 4)) w)
       /\ (is_random_tensor (WeightedSubnetwork.logits ws) = true
           /\ is_random_tensor (WeightedSubnetwork.weight ws) = true
           /\ is_random_tensor (Subnetwork.last_layer sub) = true
           /\ is_random_tensor (Subnetwork.logits sub) = true)
       /\ (WeightedSubnetwork.name ws = name
           /\ WeightedSubnetwork.iteration_number ws = PInt 1
           /\ Subnetwork.complexity sub = PFloat 1
           /\ Subnetwork.persisted_tensors sub = PDict ∅))
    (ComplexityRegularized.weighted_subnetworks
       (_EnsembleSpec.ensemble
          (result (dummy_ensemble_spec name random_seed num_subnetworks bias
                     loss adanet_loss eval_metrics dict_predictions
                     export_output_key subnetwork_builders train_op) w))).
Proof.
  rewrite (dummy_ensemble_spec_returns _ _ _ _ _ _ _ _ _ _ _ w). simpl.
  rewrite list_mul_singleton.
  induction (Z.to_nat num_subnetworks) as [|k IH]; simpl.
  - constructor.
  - constructor; [ | exact IH]. repeat split.
Qed.



(** C8. For every non-negative integer [n] passed as [num_subnetworks], the
    ensemble of the returned spec has exactly [n] weighted subnetworks, all
    of them replicas of one record, whose name is the given name and whose
    iteration number is 1. *)
Theorem weighted_subnetworks_are_n_replicas
    (name : PyVal) (random_seed n : Z)
    (bias loss adanet_loss eval_metrics : PyVal) (dict_predictions : bool)
    (export_output_key subnetwork_builders train_op : PyVal) (w : World) :
  0 <= n ->
  let subnetworks :=
    ComplexityRegularized.weighted_subnetworks
      (_EnsembleSpec.ensemble
         (result (dummy_ensemble_spec name random_seed n bias loss adanet_loss
                    eval_metrics dict_predictions export_output_key
                    subnetwork_builders train_op) w)) in
  Z.of_nat (length subnetworks) = n
  /\ exists ws,
       WeightedSubnetwork.name ws = name
       /\ WeightedSubnetwork.iteration_number ws = PInt 1
       /\ subnetworks = replicate (Z.to_nat n) ws
       /\ forall i ws', subnetworks !! i = Some ws' -> ws' = ws.
Proof.
  intros Hn subnetworks. unfold subnetworks.
  rewrite (dummy_ensemble_spec_returns _ _ _ _ _ _ _ _ _ _ _ w). simpl.
  rewrite list_mul_singleton. split.
  - rewrite length_replicate. lia.
  - exists (weighted_subnetwork_of (graph_seed w) name random_seed).
    repeat split.
    intros i ws' Hi. apply lookup_replicate in Hi. tauto.
Qed.

Lemma weighted_subnetworks_are_n_replicas_witness :
  let subnetworks :=
    ComplexityRegularized.weighted_subnetworks
      (_EnsembleSpec.ensemble
         (result (dummy_ensemble_spec (PStr "ensemble") 42 3 (PFloat 0) PNone
                    PNone PNone false PNone PNone PNone) empty_world)) in
  Z.of_nat (length subnetworks) = 3
  /\ exists ws,
       WeightedSubnetwork.name ws = PStr "ensemble"
       /\ WeightedSubnetwork.iteration_number ws = PInt 1
       /\ subnetworks = replicate (Z.to_nat 3) ws
       /\ forall i ws', subnetworks !! i = Some ws' -> ws' = ws.
Proof.
  apply (weighted_subnetworks_are_n_replicas (PStr "ensemble") 42 3 (PFloat 0)
           PNone PNone PNone false PNone PNone PNone empty_world).
  lia.
Defined.

(** C9. For every [export_output_key] that is [None] or is not one of the
    five [ExportOutputKeys] values, [_dummy_export_outputs] returns [None],
    and so the spec returned by [dummy_ensemble_spec] has [export_outputs]
    equal to [None]; the call returns normally. *)
Theorem unrecognized_export_key_gives_None
    (name : PyVal) (random_seed num_subnetworks : Z)
    (bias loss adanet_loss eval_metrics : PyVal) (dict_predictions : bool)
    (export_output_key subnetwork_builders train_op : PyVal) (w : World) :
  (export_output_key = PNone
   \/ forall key, In key ExportOutputKeys.all -> export_output_key <> PStr key) ->
  (forall logits predictions w',
     result (_dummy_export_outputs export_output_key logits predictions) w'
     = PNone)
  /\ _EnsembleSpec.export_outputs
       (result (dummy_ensemble_spec name random_seed num_subnetworks bias loss
                  adanet_loss eval_metrics dict_predictions export_output_key
                  subnetwork_builders train_op) w)
     = PNone.
Proof.
  intros Hkey.
  assert (Hnone : forall logits predictions,
             export_outputs_of export_output_key logits predictions = PNone).
  { intros logits predictions. unfold export_outputs_of.
    destruct Hkey as [-> | Hkey]; [reflexivity | ].
    rewrite !(proj2 (py_eq_str_false _ _)); [reflexivity | ..];
      apply Hkey; simpl; tauto. }
  split.
  - intros logits predictions w'.
    rewrite (_dummy_export_outputs_returns _ _ _ w'). apply Hnone.
  - rewrite (dummy_ensemble_spec_returns _ _ _ _ _ _ _ _ _ _ _ w). simpl.
    apply Hnone.
Qed.

Lemma unrecognized_export_key_gives_None_witness :
  ((forall logits predictions w',
      result (_dummy_export_outputs PNone logits predictions) w' = PNone)
   /\ _EnsembleSpec.export_outputs
        (result (dummy_ensemble_spec (PStr "ensemble") 42 1 (PFloat 0) PNone
                   PNone PNone false PNone PNone PNone) empty_world)
      = PNone)
  /\ ((forall logits predictions w',
         result (_dummy_export_outputs (PStr "serving_default") logits
                   predictions) w' = PNone)
      /\ _EnsembleSpec.export_outputs
           (result (dummy_ensemble_spec (PStr "ensemble") 42 1 (PFloat 0)
                      PNone PNone PNone false (PStr "serving_default") PNone
                      PNone) empty_world)
         = PNone).
Proof.
  split.
  - apply (unrecognized_export_key_gives_None (PStr "ensemble") 42 1
             (PFloat 0) PNone PNone PNone false PNone PNone PNone
             empty_world).
    left. reflexivity.
  - apply (unrecognized_export_key_gives_None (PStr "ensemble") 42 1
             (PFloat 0) PNone PNone PNone false (PStr "serving_default")
             PNone PNone empty_world).
    right. intros key Hin. simpl in Hin.
    decompose [or] Hin; subst; try discriminate; contradiction.
Defined.




(** * Properties of the test-case base class *)

Local Open Scope list_scope.

(** ** Paths and the file system *)

Lemma node_at_nonempty (fs : FS) (p : list string) :
  p <> [] -> node_at fs p = fs !! p.
Proof. destruct p; [congruence | reflexivity]. Qed.

Lemma node_at_None (fs : FS) (p : list string) :
  node_at fs p = None -> p <> [] /\ fs !! p = None.
Proof. destruct p; simpl; [discriminate | intros H; split; [discriminate | exact H]]. Qed.

Lemma parent_snoc (p : list string) (x : string) : parent (p ++ [x]) = p.
Proof. apply removelast_last. Qed.

Lemma below_irrefl (p : list string) : ~ below p p.
Proof. intros [_ H]. congruence. Qed.


(** A path is not a prefix of the directory it lies in. *)
Lemma snoc_not_prefix (p : list string) (x : string) (q : list string) :
  q `prefix_of` p -> ~ (p ++ [x]) `prefix_of` q.
Proof.
  intros Hq Hp. apply prefix_length in Hq. apply prefix_length in Hp.
  rewrite length_app in Hp. simpl in Hp. lia.
Qed.

Lemma remove_tree_lookup (p q : list string) (fs : FS) :
  remove_tree p fs !! q = if decide (p `prefix_of` q) then None else fs !! q.
Proof.
  unfold remove_tree. destruct (decide (p `prefix_of` q)) as [Hp | Hp].
  - apply map_lookup_filter_None. right. intros n _ Hn. apply Hn. exact Hp.
  - destruct (fs !! q) as [n|] eqn:Hq.
    + apply map_lookup_filter_Some. split; [exact Hq | exact Hp].
    + apply map_lookup_filter_None. left. exact Hq.
Qed.

Lemma remove_tree_gone (p q : list string) (fs : FS) :
  p `prefix_of` q -> remove_tree p fs !! q = None.
Proof.
  intros Hp. rewrite remove_tree_lookup.
  destruct (decide (p `prefix_of` q)); [reflexivity | contradiction].
Qed.

(** In a well-formed file system whatever holds a node is a directory. *)
Lemma wf_fs_ancestor_is_dir (fs : FS) (p : list string) :
  wf_fs fs ->
  forall (k : list string) (n : Node),
    k <> [] -> fs !! (p ++ k) = Some n -> node_at fs p = Some Dir.
Proof.
  intros Hwf k. induction k as [|x k IH] using rev_ind; intros n Hk Hq.
  - congruence.
  - rewrite app_assoc in Hq.
    destruct (Hwf _ _ Hq) as [_ Hpar]. rewrite parent_snoc in Hpar.
    destruct k as [|y k].
    + rewrite app_nil_r in Hpar. exact Hpar.
    + apply (IH Dir); [discriminate | ].
      rewrite <- Hpar. symmetry. apply node_at_nonempty.
      destruct p; discriminate.
Qed.

Lemma wf_fs_nothing_below (fs : FS) (p q : list string) :
  wf_fs fs -> node_at fs p <> Some Dir -> below p q -> fs !! q = None.
Proof.
  intros Hwf Hp [[k ->] Hne].
  destruct (fs !! (p ++ k)) as [n|] eqn:Hq; [ | reflexivity].
  exfalso. apply Hp. apply (wf_fs_ancestor_is_dir fs p Hwf k n); [ | exact Hq].
  intros ->. rewrite app_nil_r in Hne. congruence.
Qed.

Lemma wf_fs_remove_tree (p : list string) (fs : FS) :
  wf_fs fs -> wf_fs (remove_tree p fs).
Proof.
  intros Hwf q n Hq. rewrite remove_tree_lookup in Hq.
  destruct (decide (p `prefix_of` q)) as [ | Hpq]; [discriminate | ].
  destruct (Hwf _ _ Hq) as [Hne Hpar]. split; [exact Hne | ].
  destruct (parent q) as [|x par] eqn:Epar; [reflexivity | ].
  simpl in *. rewrite remove_tree_lookup.
  destruct (decide (p `prefix_of` (x :: par))) as [Hpp | ]; [ | exact Hpar].
  exfalso. apply Hpq. etransitivity; [exact Hpp | ].
  rewrite <- Epar. unfold parent.
  destruct (exists_last Hne) as [q' [y ->]]. rewrite removelast_last.
  exists [y]. reflexivity.
Qed.

Lemma wf_fs_insert_dir (p : list string) (fs : FS) :
  wf_fs fs -> node_at fs p = None -> node_at fs (parent p) = Some Dir ->
  wf_fs (<[p := Dir]> fs).
Proof.
  intros Hwf Hp Hpar. apply node_at_None in Hp as [Hne Hfree].
  assert (Hkeep : forall q, node_at fs q = Some Dir ->
                            node_at (<[p := Dir]> fs) q = Some Dir).
  { intros q Hq. destruct q as [|x q]; [reflexivity | ]. simpl in *.
    rewrite lookup_insert_ne; [exact Hq | congruence]. }
  apply map_Forall_insert_2.
  - split; [exact Hne | apply Hkeep, Hpar].
  - intros q n Hq. destruct (Hwf _ _ Hq) as [Hq1 Hq2].
    split; [exact Hq1 | apply Hkeep, Hq2].
Qed.

Lemma grows_along_refl (p : list string) (fs : FS) : grows_along p fs fs.
Proof. intros q. left. reflexivity. Qed.

Lemma grows_along_trans (p1 p2 : list string) (fs fs1 fs2 : FS) :
  p1 `prefix_of` p2 ->
  grows_along p1 fs fs1 -> grows_along p2 fs1 fs2 -> grows_along p2 fs fs2.
Proof.
  intros Hp H1 H2 q.
  destruct (H1 q) as [E1 | (Hq1 & Hn1 & Hd1)];
    destruct (H2 q) as [E2 | (Hq2 & Hn2 & Hd2)].
  - left. congruence.
  - right. repeat split; [exact Hq2 | congruence | exact Hd2].
  - right. repeat split; [etransitivity; eassumption | exact Hn1 | congruence].
  - congruence.
Qed.

Lemma grows_along_node_at (p q : list string) (fs fs' : FS) :
  grows_along p fs fs' -> node_at fs q = Some Dir -> node_at fs' q = Some Dir.
Proof.
  intros H Hq. destruct q as [|x q]; [reflexivity | ]. simpl in *.
  destruct (H (x :: q)) as [E | (_ & Hn & _)]; congruence.
Qed.

(** ** The library calls *)

Lemma mkdir_unfold (p : list string) (env : Env) :
  mkdir p env =
  match node_at (filesystem env) p with
  | Some _ => (Raised FileExistsError, env)
  | None =>
      match node_at (filesystem env) (parent p) with
      | Some Dir => (Returned tt, mkEnv (<[p := Dir]> (filesystem env)) (self env))
      | Some File => (Raised NotADirectoryError, env)
      | None => (Raised FileNotFoundError, env)
      end
  end.
Proof.
  unfold mkdir, io_bind, get_filesystem, put_filesystem, raise.
  destruct (node_at (filesystem env) p); [reflexivity | ].
  destruct (node_at (filesystem env) (parent p)) as [[|]|]; reflexivity.
Qed.

Lemma mkdir_spec (p : list string) (env env' : Env) (r : Outcome unit) :
  mkdir p env = (r, env') ->
  self env' = self env
  /\ grows_along p (filesystem env) (filesystem env')
  /\ (wf_fs (filesystem env) -> wf_fs (filesystem env'))
  /\ match r with
     | Returned _ =>
         node_at (filesystem env) p = None
         /\ node_at (filesystem env') p = Some Dir
     | Raised _ => env' = env
     end.
Proof.
  rewrite mkdir_unfold.
  destruct (node_at (filesystem env) p) as [n|] eqn:Hp.
  { intros [= <- <-]. auto using grows_along_refl. }
  destruct (node_at (filesystem env) (parent p)) as [[|]|] eqn:Hpar;
    intros [= <- <-]; auto using grows_along_refl.
  simpl. destruct (node_at_None _ _ Hp) as [Hne Hfree].
  split; [reflexivity | split; [ | split; [ | split; [reflexivity | ]]]].
  - intros q. destruct (decide (q = p)) as [-> | Hq].
    + right. rewrite lookup_insert_eq. auto.
    + left. apply lookup_insert_ne. congruence.
  - intros Hwf. apply wf_fs_insert_dir; assumption.
  - rewrite node_at_nonempty by exact Hne. apply lookup_insert_eq.
Qed.

Lemma makedirs_rev_cons (tail : string) (rhead : list string) (env : Env) :
  makedirs_rev (tail :: rhead) env =
  if bool_decide (is_Some (node_at (filesystem env) (rev rhead)))
  then mkdir (rev rhead ++ [tail]) env
  else match makedirs_rev rhead env with
       | (Returned _, env1) => mkdir (rev rhead ++ [tail]) env1
       | (Raised FileExistsError, env1) => mkdir (rev rhead ++ [tail]) env1
       | (Raised e, env1) => (Raised e, env1)
       end.
Proof.
  simpl. unfold io_bind at 1. unfold path_exists, io_bind at 1.
  unfold get_filesystem, io_ret. simpl.
  destruct (bool_decide (is_Some (node_at (filesystem env) (rev rhead)))).
  - reflexivity.
  - unfold io_bind, try_except_pass. simpl.
    destruct (makedirs_rev rhead env) as [[[]|[]] env1]; reflexivity.
Qed.

(** What [os.makedirs] does to the state, whether it returns or raises. *)
Lemma makedirs_rev_spec (rname : list string) :
  forall (env env' : Env) (r : Outcome unit),
    makedirs_rev rname env = (r, env') ->
    self env' = self env
    /\ grows_along (rev rname) (filesystem env) (filesystem env')
    /\ (wf_fs (filesystem env) -> wf_fs (filesystem env'))
    /\ match r with
       | Returned _ =>
           node_at (filesystem env) (rev rname) = None
           /\ node_at (filesystem env') (rev rname) = Some Dir
       | Raised _ =>
           filesystem env' !! rev rname = filesystem env !! rev rname
       end.
Proof.
  induction rname as [|tail rhead IH]; intros env env' r Hrun.
  - simpl in Hrun. apply mkdir_spec in Hrun as (Hself & Hgrow & Hwf & Hr).
    split; [exact Hself | split; [exact Hgrow | split; [exact Hwf | ]]].
    destruct r; [exact Hr | ]. rewrite Hr. reflexivity.
  - rewrite makedirs_rev_cons in Hrun. simpl rev.
    assert (Hlast :
      forall env1,
        self env1 = self env ->
        grows_along (rev rhead) (filesystem env) (filesystem env1) ->
        (wf_fs (filesystem env) -> wf_fs (filesystem env1)) ->
        mkdir (rev rhead ++ [tail]) env1 = (r, env') ->
        self env' = self env
        /\ grows_along (rev rhead ++ [tail]) (filesystem env) (filesystem env')
        /\ (wf_fs (filesystem env) -> wf_fs (filesystem env'))
        /\ match r with
           | Returned _ =>
               node_at (filesystem env) (rev rhead ++ [tail]) = None
               /\ node_at (filesystem env') (rev rhead ++ [tail]) = Some Dir
           | Raised _ =>
               filesystem env' !! (rev rhead ++ [tail])
               = filesystem env !! (rev rhead ++ [tail])
           end).
    { intros env1 Hself1 Hgrow1 Hwf1 Hmk.
      assert (Hsame : filesystem env1 !! (rev rhead ++ [tail])
                      = filesystem env !! (rev rhead ++ [tail])).
      { destruct (Hgrow1 (rev rhead ++ [tail])) as [E | (Hpre & _)];
          [exact E | ].
        exfalso. eapply snoc_not_prefix; [ | exact Hpre]. reflexivity. }
      apply mkdir_spec in Hmk as (Hself2 & Hgrow2 & Hwf2 & Hr).
      split; [ | split; [ | split]].
      - congruence.
      - eapply grows_along_trans; [ | exact Hgrow1 | exact Hgrow2].
        exists [tail]. reflexivity.
      - auto.
      - destruct r as [[]|e].
        + destruct Hr as [Hfree Hdir]. split; [ | exact Hdir].
          rewrite node_at_nonempty in * by (destruct (rev rhead); discriminate).
          congruence.
        + rewrite Hr. exact Hsame. }
    destruct (bool_decide (is_Some (node_at (filesystem env) (rev rhead)))).
    + apply (Hlast env); auto using grows_along_refl.
    + destruct (makedirs_rev rhead env) as [r1 env1] eqn:Hhead.
      destruct (IH _ _ _ Hhead) as (Hself1 & Hgrow1 & Hwf1 & Hr1).
      destruct r1 as [[]|e].
      * apply (Hlast env1); assumption.
      * destruct e; try (apply (Hlast env1); assumption);
          injection Hrun as <- <-;
          (split; [ | split; [ | split]];
           [ exact Hself1
           | eapply grows_along_trans;
             [ | exact Hgrow1 | apply grows_along_refl]; exists [tail]; reflexivity
           | exact Hwf1
           | destruct (Hgrow1 (rev rhead ++ [tail])) as [E | (Hpre & _)];
             [ exact E
             | exfalso; eapply snoc_not_prefix; [ | exact Hpre]; reflexivity ] ]).
Qed.


Lemma shutil_rmtree_ignore_errors (resolve : string -> list string)
    (path : string) (env : Env) :
  shutil_rmtree resolve path true env
  = (Returned tt,
     mkEnv (after_rmtree (resolve path) (filesystem env)) (self env)).
Proof.
  unfold shutil_rmtree, try_except_pass, rmtree_strict, io_bind,
    get_filesystem, put_filesystem, raise, after_rmtree.
  destruct env as [fs inst]. simpl.
  destruct (node_at fs (resolve path)) as [[|]|]; reflexivity.
Qed.

Lemma shutil_rmtree_strict_missing (resolve : string -> list string)
    (path : string) (env : Env) :
  node_at (filesystem env) (resolve path) = None ->
  shutil_rmtree resolve path false env = (Raised FileNotFoundError, env).
Proof.
  intros H.
  unfold shutil_rmtree, rmtree_strict, io_bind, get_filesystem, raise.
  rewrite H. reflexivity.
Qed.


Lemma after_rmtree_nothing_below (p q : list string) (fs : FS) :
  wf_fs fs -> below p q -> after_rmtree p fs !! q = None.
Proof.
  intros Hwf Hq. unfold after_rmtree.
  destruct (node_at fs p) as [[|]|] eqn:Hp.
  - apply remove_tree_gone, Hq.
  - apply (wf_fs_nothing_below fs p q Hwf); [congruence | exact Hq].
  - apply (wf_fs_nothing_below fs p q Hwf); [congruence | exact Hq].
Qed.

Lemma after_rmtree_wf (p : list string) (fs : FS) :
  wf_fs fs -> wf_fs (after_rmtree p fs).
Proof.
  intros Hwf. unfold after_rmtree.
  destruct (node_at fs p) as [[|]|]; auto using wf_fs_remove_tree.
Qed.


Lemma after_rmtree_missing (p : list string) (fs : FS) :
  node_at fs p = None -> after_rmtree p fs = fs.
Proof. intros H. unfold after_rmtree. rewrite H. reflexivity. Qed.


(** ** [setUp] and [tearDown] *)

Section SetUpTearDown.

Variable resolve : string -> list string.
Variable test_tmpdir : string.
Variables base_setUp base_tearDown : IO unit.

(** The hooks of the base classes return normally and touch neither the
    file system nor the attribute. *)
Hypothesis base_setUp_returns : forall env, base_setUp env = (Returned tt, env).
Hypothesis base_tearDown_returns :
  forall env, base_tearDown env = (Returned tt, env).

Lemma setUp_unfold (env : Env) :
  let path := os_path_join test_tmpdir (test_id (self env)) in
  AdanetTestCase.setUp resolve test_tmpdir base_setUp env
  = os_makedirs resolve path
      (mkEnv (after_rmtree (resolve path) (filesystem env))
         (mkInstance (test_id (self env)) (Some path))).
Proof.
  intros path. unfold AdanetTestCase.setUp.
  unfold io_bind at 1. rewrite base_setUp_returns.
  unfold io_bind at 1. unfold AdanetTestCase.self_id.
  unfold io_bind at 1. unfold AdanetTestCase.set_test_subdirectory.
  unfold io_bind at 1. unfold AdanetTestCase.get_test_subdirectory at 1.
  cbn [self test_subdirectory filesystem test_id].
  unfold io_bind at 1. rewrite shutil_rmtree_ignore_errors.
  unfold io_bind at 1. unfold AdanetTestCase.get_test_subdirectory.
  reflexivity.
Qed.

Lemma tearDown_unfold (env : Env) (path : string) :
  test_subdirectory (self env) = Some path ->
  AdanetTestCase.tearDown resolve base_tearDown env
  = (Returned tt,
     mkEnv (after_rmtree (resolve path) (filesystem env)) (self env)).
Proof.
  intros Hattr. unfold AdanetTestCase.tearDown.
  unfold io_bind at 1. rewrite base_tearDown_returns.
  unfold io_bind at 1. unfold AdanetTestCase.get_test_subdirectory.
  rewrite Hattr. apply shutil_rmtree_ignore_errors.
Qed.

End SetUpTearDown.

(** ** The claims about [AdanetTestCase] *)

(** ** The test case at work *)

(** [setUp] on the example: the directory of the earlier run is emptied. *)
Example setUp_clears_stale_directory :
  AdanetTestCase.setUp split_path "/tmp" (io_ret tt) example_env
  = (Returned tt,
     mkEnv (<[ ["tmp"; "suite.Test.test_x"] := Dir ]> (<[ ["tmp"] := Dir ]> ∅))
       (mkInstance "suite.Test.test_x" (Some "/tmp/suite.Test.test_x"))).
Proof. vm_compute. reflexivity. Qed.

(** [tearDown] before any [setUp]: the attribute does not exist. *)
Example tearDown_without_setUp :
  AdanetTestCase.tearDown split_path (io_ret tt) example_env
  = (Raised AttributeError, example_env).
Proof. reflexivity. Qed.

(** A regular file on the way makes [setUp] fail in [os.makedirs]. *)
Example setUp_below_a_file :
  AdanetTestCase.setUp split_path "/tmp/log" (io_ret tt)
    (mkEnv (<[ ["tmp"; "log"] := File ]> (<[ ["tmp"] := Dir ]> ∅))
       (mkInstance "suite.Test.test_x" None))
  = (Raised NotADirectoryError,
     mkEnv (<[ ["tmp"; "log"] := File ]> (<[ ["tmp"] := Dir ]> ∅))
       (mkInstance "suite.Test.test_x" (Some "/tmp/log/suite.Test.test_x"))).
Proof. vm_compute. reflexivity. Qed.

(** Without [ignore_errors] the removal of a missing path raises. *)
Example rmtree_strict_on_missing_path :
  fst (shutil_rmtree split_path "/tmp/missing" false example_env)
  = Raised FileNotFoundError.
Proof. reflexivity. Qed.

Lemma example_fs_wf : wf_fs example_fs.
Proof.
  unfold example_fs.
  repeat (apply map_Forall_insert_2; [split; [discriminate | reflexivity] | ]).
  apply map_Forall_empty.
Qed.

Section Claims.

Variable resolve : string -> list string.
Variable test_tmpdir : string.
Variables base_setUp base_tearDown : IO unit.

(** The hooks of the base classes return normally and touch neither the
    file system nor the attribute. *)
Hypothesis base_setUp_returns : forall env, base_setUp env = (Returned tt, env).
Hypothesis base_tearDown_returns :
  forall env, base_tearDown env = (Returned tt, env).

Local Abbreviation setUp := (AdanetTestCase.setUp resolve test_tmpdir base_setUp).
Local Abbreviation tearDown := (AdanetTestCase.tearDown resolve base_tearDown).

(** C3. Directory cleanup ignores missing-path errors: the removal of
    [test_subdirectory] done in [setUp] and in [tearDown] is
    [shutil.rmtree(..., ignore_errors=True)], which never raises.  When the
    directory does not exist it returns and changes nothing: [tearDown]
    returns normally with the state as it was, and [setUp] goes on to
    [os.makedirs] on the untouched file system. *)
Theorem cleanup_ignores_missing_directory (env : Env) (path : string) :
  node_at (filesystem env) (resolve path) = None ->
  (forall env1 path1, fst (shutil_rmtree resolve path1 true env1) = Returned tt)
  /\ shutil_rmtree resolve path true env = (Returned tt, env)
  /\ (test_subdirectory (self env) = Some path ->
        tearDown env = (Returned tt, env))
  /\ (os_path_join test_tmpdir (test_id (self env)) = path ->
        setUp env
        = os_makedirs resolve path
            (mkEnv (filesystem env)
               (mkInstance (test_id (self env)) (Some path)))).
Proof.
  intros Hmissing.
  assert (Hsame : mkEnv (after_rmtree (resolve path) (filesystem env)) (self env)
                  = env).
  { rewrite after_rmtree_missing by exact Hmissing. destruct env; reflexivity. }
  split; [ | split; [ | split]].
  - intros env1 path1. rewrite shutil_rmtree_ignore_errors. reflexivity.
  - rewrite shutil_rmtree_ignore_errors, Hsame. reflexivity.
  - intros Hattr.
    rewrite (tearDown_unfold resolve base_tearDown base_tearDown_returns
               env path Hattr).
    rewrite Hsame. reflexivity.
  - intros Hpath.
    rewrite (setUp_unfold resolve test_tmpdir base_setUp base_setUp_returns).
    cbv zeta. rewrite Hpath.
    rewrite after_rmtree_missing by exact Hmissing. reflexivity.
Qed.

End Claims.

Lemma example_path_resolves :
  split_path (os_path_join "/tmp" "suite.Test.test_x")
  = ["tmp"; "suite.Test.test_x"].
Proof. reflexivity. Qed.


Lemma cleanup_ignores_missing_directory_witness :
  let env :=
    mkEnv (<[ ["tmp"] := Dir ]> ∅)
      (mkInstance "suite.Test.test_x" (Some "/tmp/suite.Test.test_x")) in
  node_at (filesystem env) (split_path "/tmp/suite.Test.test_x") = None
  /\ AdanetTestCase.tearDown split_path (io_ret tt) env = (Returned tt, env)
  /\ AdanetTestCase.setUp split_path "/tmp" (io_ret tt) env
     = os_makedirs split_path "/tmp/suite.Test.test_x" env.
Proof.
  intros env.
  assert (Hmissing : node_at (filesystem env)
                       (split_path "/tmp/suite.Test.test_x") = None)
    by reflexivity.
  destruct (cleanup_ignores_missing_directory split_path "/tmp" (io_ret tt)
              (io_ret tt) (fun _ => eq_refl) (fun _ => eq_refl) env
              "/tmp/suite.Test.test_x" Hmissing)
    as (_ & _ & HtearDown & HsetUp).
  split; [exact Hmissing | split].
  - apply HtearDown. reflexivity.
  - apply HsetUp. reflexivity.
Defined.

(** * Further properties of the factories *)

Local Open Scope string_scope.

Lemma extends_ret {A : Type} (a : A) : extends_graph (ret a).
Proof. intros w. reflexivity. Qed.

Lemma extends_add_to_graph (node : PyVal) : extends_graph (add_to_graph node).
Proof. intros w. exists [node]. reflexivity. Qed.

Lemma extends_bind {A B : Type} (m : TF A) (k : A -> TF B) :
  extends_graph m -> (forall a, extends_graph (k a)) ->
  extends_graph (bind m k).
Proof.
  intros Hm Hk w. rewrite world_after_bind.
  etransitivity; [apply Hm | apply Hk].
Qed.

Lemma extends_if {A : Type} (b : bool) (m1 m2 : TF A) :
  extends_graph m1 -> extends_graph m2 ->
  extends_graph (if b then m1 else m2).
Proof. destruct b; auto. Qed.

Lemma extends_random_normal (shape : list Z) (seed : Z) :
  extends_graph (tf.random_normal shape seed).
Proof. intros w. eexists. reflexivity. Qed.

Lemma extends_convert_to_tensor (value : PyVal) :
  extends_graph (tf.convert_to_tensor value).
Proof.
  unfold tf.convert_to_tensor.
  destruct (is_tensor value); [apply extends_ret | apply extends_add_to_graph].
Qed.

Lemma new_extends (mode : string)
    (predictions loss train_op eval_metric_ops : PyVal) :
  extends_graph
    (EstimatorSpec.new mode predictions loss train_op eval_metric_ops).
Proof.
  estimator_spec_cases; intros w; first [reflexivity | eexists; reflexivity].
Qed.

(** Follows the structure of a computation to show that it extends the
    graph. *)
Ltac tf_extends :=
  repeat lazymatch goal with
    | |- extends_graph (ret _) => apply extends_ret
    | |- extends_graph (bind _ _) => apply extends_bind; [ | intro ]
    | |- extends_graph (if _ then _ else _) => apply extends_if
    | |- extends_graph (tf.random_normal _ _) => apply extends_random_normal
    | |- extends_graph (tf.convert_to_tensor _) =>
        apply extends_convert_to_tensor
    | |- extends_graph (EstimatorSpec.new _ _ _ _ _) => apply new_extends
    | |- extends_graph _ => apply extends_add_to_graph
    end.

Lemma dummy_tensor_extends (shape : list Z) (random_seed : Z) :
  extends_graph (dummy_tensor shape random_seed).
Proof. unfold dummy_tensor. tf_extends. Qed.

Lemma _dummy_export_outputs_extends (key logits predictions : PyVal) :
  extends_graph (_dummy_export_outputs key logits predictions).
Proof. unfold _dummy_export_outputs. tf_extends. Qed.

(** Shows that a computation of the factories extends the graph. *)
Ltac tf_extends_all :=
  repeat lazymatch goal with
    | |- extends_graph (dummy_tensor _ _) => apply dummy_tensor_extends
    | |- extends_graph (_dummy_export_outputs _ _ _) =>
        apply _dummy_export_outputs_extends
    | |- extends_graph _ => progress tf_extends
    end.

(** The graph only grows.  No factory, and no input function a factory
    returns, removes or reorders a node that is already in the default
    graph: the graph before the call is a prefix of the graph after it. *)
Lemma factories_only_extend_the_graph :
  (forall shape random_seed, extends_graph (dummy_tensor shape random_seed))
  /\ (forall name random_seed num_subnetworks bias loss adanet_loss
        eval_metrics dict_predictions export_output_key subnetwork_builders
        train_op,
        extends_graph
          (dummy_ensemble_spec name random_seed num_subnetworks bias loss
             adanet_loss eval_metrics dict_predictions export_output_key
             subnetwork_builders train_op))
  /\ (forall loss random_seed eval_metric_ops,
        extends_graph (dummy_estimator_spec loss random_seed eval_metric_ops))
  /\ (forall features labels w params,
        extends_graph (result (dummy_input_fn features labels) w params))
  /\ (forall features labels w params,
        extends_graph (result (dataset_input_fn features labels) w params)).
Proof.
  split; [ | split; [ | split; [ | split]]].
  - apply dummy_tensor_extends.
  - intros. unfold dummy_ensemble_spec. tf_extends_all.
  - intros. unfold dummy_estimator_spec. tf_extends_all.
  - intros features labels w params.
    change (result (dummy_input_fn features labels) w params)
      with (bind (tf.constant features (Some "x"))
              (fun x => bind (tf.constant labels (Some "y"))
                          (fun input_labels =>
                             ret (PDict {[ "x" := x ]}, input_labels)))).
    tf_extends.
  - intros features labels w params.
    change (result (dataset_input_fn features labels) w params)
      with (bind (tf.Dataset_from_tensors (PList [features]))
              (fun dataset =>
                 bind (tf.make_one_shot_iterator dataset)
                   (fun iterator =>
                      bind (tf.get_next iterator)
                        (fun input_features =>
                           bind (if negb (is_None labels)
                                 then bind (tf.Dataset_from_tensors
                                              (PList [labels]))
                                        (fun dataset =>
                                           bind (tf.make_one_shot_iterator
                                                   dataset)
                                             (fun iterator =>
                                                tf.get_next iterator))
                                 else ret PNone)
                             (fun input_labels =>
                                ret (PDict {[ "x" := input_features ]},
                                     input_labels)))))).
    tf_extends.
Qed.

(** Finds a node in a graph given as the nodes appended to an earlier
    graph. *)
Ltac in_graph :=
  simpl; rewrite <- ?app_assoc; apply in_or_app; right; simpl; tauto.

(** The input-function factories build nothing themselves.  A call to
    [dummy_input_fn] or [dataset_input_fn] leaves the default graph as it
    is; the tensors are made by each call of the function they return, and
    belong to the graph that is the default one at that call. *)
Theorem input_fn_factories_defer_graph_construction
    (features labels params : PyVal) (w w' : World) :
  let in_graph_after (call : TF (PyVal * PyVal)) (tensor : PyVal) :=
    In tensor (default_graph (world_after call w')) in
  let dummy_call := result (dummy_input_fn features labels) w params in
  let dataset_call := result (dataset_input_fn features labels) w params in
  world_after (dummy_input_fn features labels) w = w
  /\ world_after (dataset_input_fn features labels) w = w
  /\ (exists x,
        fst (result dummy_call w') = PDict {[ "x" := x ]}
        /\ in_graph_after dummy_call x
        /\ in_graph_after dummy_call (snd (result dummy_call w')))
  /\ (exists x,
        fst (result dataset_call w') = PDict {[ "x" := x ]}
        /\ in_graph_after dataset_call x
        /\ (snd (result dataset_call w') = PNone
            \/ in_graph_after dataset_call (snd (result dataset_call w')))).
Proof.
  intros in_graph_after dummy_call dataset_call.
  unfold in_graph_after, dummy_call, dataset_call.
  split; [reflexivity | split; [reflexivity | split]].
  - eexists. split; [reflexivity | ]. split; in_graph.
  - exists (dataset_element features).
    split; [destruct labels; reflexivity | ].
    split; [destruct labels; in_graph | ].
    destruct labels; try (right; in_graph). left. reflexivity.
Qed.

(** A node stays in the graph through what runs afterwards. *)
Lemma in_graph_bind_l {A B : Type} (m : TF A) (k : A -> TF B)
    (node : PyVal) (w : World) :
  In node (default_graph (world_after m w)) ->
  (forall a, extends_graph (k a)) ->
  In node (default_graph (world_after (bind m k) w)).
Proof.
  intros Hm Hk. rewrite world_after_bind.
  destruct (Hk (result m w) (world_after m w)) as [added ->].
  apply in_or_app. left. exact Hm.
Qed.

Lemma in_graph_bind_r {A B : Type} (m : TF A) (k : A -> TF B)
    (node : PyVal) (w : World) :
  In node (default_graph (world_after (k (result m w)) (world_after m w))) ->
  In node (default_graph (world_after (bind m k) w)).
Proof. rewrite world_after_bind. trivial. Qed.

Lemma add_to_graph_in_graph (node : PyVal) (w : World) :
  In node (default_graph (world_after (add_to_graph node) w)).
Proof. simpl. apply in_or_app. right. left. reflexivity. Qed.

Lemma dummy_tensor_in_graph (seed : option Z) (shape : list Z)
    (random_seed : Z) (w : World) :
  graph_seed w = seed ->
  In (random_tensor seed shape random_seed)
     (default_graph (world_after (dummy_tensor shape random_seed) w)).
Proof.
  intros <-. unfold dummy_tensor. rewrite !world_after_bind.
  apply (add_to_graph_in_graph (random_tensor (graph_seed w) shape random_seed)).
Qed.

(** The graph-level seed at a later point of a computation. *)
Lemma graph_seed_after {A : Type} (m : TF A) (w : World) (seed : option Z) :
  keeps_seed m -> graph_seed w = seed -> graph_seed (world_after m w) = seed.
Proof. intros Hm <-. apply Hm. Qed.

(** Shows that the graph-level seed is still the one of the initial
    state. *)
Ltac seed_unchanged :=
  repeat (apply graph_seed_after; [solve [tf_keeps_seed] | ]);
  reflexivity.

(** Finds the step of a computation that makes a node, and shows that the
    node is still there at the end. *)
Ltac in_graph_after :=
  first
    [ apply in_graph_bind_l;
      [ solve [ apply dummy_tensor_in_graph; seed_unchanged
              | apply add_to_graph_in_graph ]
      | intro; solve [ tf_extends_all ] ]
    | apply in_graph_bind_r; cbv beta; in_graph_after ].

(** The nodes a call to [dummy_ensemble_spec] leaves in the graph. *)
Lemma dummy_ensemble_spec_graph
    (name : PyVal) (random_seed num_subnetworks : Z)
    (bias loss adanet_loss eval_metrics : PyVal) (dict_predictions : bool)
    (export_output_key subnetwork_builders train_op : PyVal) (w : World) :
  let graph :=
    default_graph
      (world_after
         (dummy_ensemble_spec name random_seed num_subnetworks bias loss
            adanet_loss eval_metrics dict_predictions export_output_key
            subnetwork_builders train_op) w) in
  In (random_tensor (graph_seed w) [] (random_seed * 3)) graph
  /\ In (Const bias None) graph
  /\ In (random_tensor (graph_seed w) [2; 1] (random_seed * 4)) graph
  /\ In (random_tensor (graph_seed w) [1; 2] (random_seed * 4)) graph
  /\ (is_None loss = true ->
      In (random_tensor (graph_seed w) [] random_seed) graph)
  /\ (is_None adanet_loss = true ->
        In (random_tensor (graph_seed w) [] (random_seed * 2)) graph).
Proof.
  intros graph. unfold graph, dummy_ensemble_spec.
  split; [in_graph_after | ].
  split; [unfold tf.constant at 1; in_graph_after | ].
  split; [in_graph_after | ].
  split; [in_graph_after | ].
  split.
  - intros Hloss. rewrite Hloss. in_graph_after.
  - intros Hadanet. rewrite Hadanet. in_graph_after.
Qed.

(** The nodes a call to [dummy_estimator_spec] leaves in the graph. *)
Lemma dummy_estimator_spec_graph (loss : PyVal) (random_seed : Z)
    (eval_metric_ops : PyVal) (w : World) :
  let graph :=
    default_graph
      (world_after (dummy_estimator_spec loss random_seed eval_metric_ops) w)
  in
  In (random_tensor (graph_seed w) [] (random_seed * 2)) graph
  /\ In NoOp graph
  /\ (is_None loss = true ->
      In (random_tensor (graph_seed w) [] random_seed) graph).
Proof.
  intros graph. unfold graph, dummy_estimator_spec.
  split; [in_graph_after | ].
  split; [unfold tf.no_op; in_graph_after | ].
  intros Hloss. rewrite Hloss. in_graph_after.
Qed.

(** The tensors a factory draws belong to the default graph after the call:
    the tensor [dummy_tensor] returns; the logits, the bias, the defaulted
    loss and AdaNet loss, and the tensors of every weighted-subnetwork
    record of an ensemble spec; the predictions, the train op and the
    defaulted loss that [dummy_estimator_spec] makes, which are those of
    every estimator spec it returns, as it does with the default
    arguments. *)
Theorem drawn_tensors_are_in_the_default_graph
    (name : PyVal) (shape : list Z) (random_seed num_subnetworks : Z)
    (bias loss adanet_loss eval_metrics : PyVal) (dict_predictions : bool)
    (export_output_key subnetwork_builders train_op eval_metric_ops : PyVal)
    (w : World) :
  let ensemble_call :=
    dummy_ensemble_spec name random_seed num_subnetworks bias loss
      adanet_loss eval_metrics dict_predictions export_output_key
      subnetwork_builders train_op in
  let estimator_call :=
    dummy_estimator_spec loss random_seed eval_metric_ops in
  let spec := result ensemble_call w in
  let graph := default_graph (world_after ensemble_call w) in
  let estimator_graph := default_graph (world_after estimator_call w) in
  In (result (dummy_tensor shape random_seed) w)
     (default_graph (world_after (dummy_tensor shape random_seed) w))
  /\ In (ComplexityRegularized.logits (_EnsembleSpec.ensemble spec)) graph
  /\ In (ComplexityRegularized.bias (_EnsembleSpec.ensemble spec)) graph
  /\ Forall
       (fun ws =>
          In (WeightedSubnetwork.logits ws) graph
          /\ In (WeightedSubnetwork.weight ws) graph
          /\ In (Subnetwork.last_layer (WeightedSubnetwork.subnetwork ws))
                graph
          /\ In (Subnetwork.logits (WeightedSubnetwork.subnetwork ws)) graph)
       (ComplexityRegularized.weighted_subnetworks
          (_EnsembleSpec.ensemble spec))
  /\ (loss = PNone -> In (_EnsembleSpec.loss spec) graph)
  /\ (adanet_loss = PNone -> In (_EnsembleSpec.adanet_loss spec) graph)
  /\ In (result (dummy_tensor [] (random_seed * 2)) w) estimator_graph
  /\ In (result tf.no_op w) estimator_graph
  /\ (loss = PNone ->
      In (result (dummy_tensor [] random_seed) w) estimator_graph)
  /\ (forall estimator_spec,
        result estimator_call w = Returned estimator_spec ->
        EstimatorSpec.predictions estimator_spec
        = result (dummy_tensor [] (random_seed * 2)) w
        /\ In (EstimatorSpec.predictions estimator_spec) estimator_graph
        /\ In (EstimatorSpec.train_op estimator_spec) estimator_graph
        /\ (loss = PNone ->
            In (EstimatorSpec.loss estimator_spec) estimator_graph))
  /\ (loss = PNone -> eval_metric_ops = PNone ->
      exists estimator_spec,
        result estimator_call w = Returned estimator_spec).
Proof.
  intros ensemble_call estimator_call spec graph estimator_graph.
  destruct (dummy_ensemble_spec_graph name random_seed num_subnetworks bias
              loss adanet_loss eval_metrics dict_predictions
              export_output_key subnetwork_builders train_op w)
    as (Hlogits & Hbias & Hcolumn & Hrow & Hloss & Hadanet).
  fold ensemble_call in Hlogits, Hbias, Hcolumn, Hrow, Hloss, Hadanet.
  fold graph in Hlogits, Hbias, Hcolumn, Hrow, Hloss, Hadanet.
  destruct (dummy_estimator_spec_graph loss random_seed eval_metric_ops w)
    as (Hpredictions & Hnoop & Hdefault).
  fold estimator_call in Hpredictions, Hnoop, Hdefault.
  fold estimator_graph in Hpredictions, Hnoop, Hdefault.
  clearbody graph estimator_graph.
  unfold spec, ensemble_call.
  rewrite (dummy_ensemble_spec_returns _ _ _ _ _ _ _ _ _ _ _ w).
  rewrite !dummy_tensor_returns.
  cbn [_EnsembleSpec.ensemble _EnsembleSpec.loss _EnsembleSpec.adanet_loss
       ComplexityRegularized.logits ComplexityRegularized.bias
       ComplexityRegularized.weighted_subnetworks].
  split; [apply dummy_tensor_in_graph; reflexivity | ].
  split; [exact Hlogits | split; [exact Hbias | ]].
  split; [ | split; [ | split; [ | split; [ | split; [ | split; [ | split]]]]]].
  - rewrite list_mul_singleton.
    induction (Z.to_nat num_subnetworks) as [|k IH]; simpl.
    + constructor.
    + constructor; [ | exact IH]. simpl. auto.
  - intros ->. apply Hloss. reflexivity.
  - intros ->. apply Hadanet. reflexivity.
  - exact Hpredictions.
  - exact Hnoop.
  - intros ->. apply Hdefault. reflexivity.
  - intros estimator_spec Hreturned.
    destruct (dummy_estimator_spec_returned _ _ _ _ _ Hreturned)
      as (_ & -> & -> & Hstored).
    split; [reflexivity | ].
    split; [exact Hpredictions | split; [exact Hnoop | ]].
    intros ->. rewrite (Hstored eq_refl). apply Hdefault. reflexivity.
  - intros -> ->. unfold estimator_call.
    rewrite (dummy_estimator_spec_outcome _ _ _ w).
    eexists. reflexivity.
Qed.

Lemma drawn_tensors_are_in_the_default_graph_witness :
  let call := dummy_ensemble_spec_by_default (PStr "ensemble") in
  In (_EnsembleSpec.loss (result call empty_world))
     (default_graph (world_after call empty_world))
  /\ In (_EnsembleSpec.adanet_loss (result call empty_world))
        (default_graph (world_after call empty_world))
  /\ exists estimator_spec,
       result (dummy_estimator_spec PNone 42 PNone) empty_world
       = Returned estimator_spec
       /\ In (EstimatorSpec.loss estimator_spec)
             (default_graph
                (world_after (dummy_estimator_spec PNone 42 PNone)
                   empty_world)).
Proof.
  pose proof (drawn_tensors_are_in_the_default_graph (PStr "ensemble") [] 42
                1 (PFloat 0) PNone PNone PNone false PNone PNone PNone PNone
                empty_world) as H.
  cbv zeta in H.
  destruct H as (_ & _ & _ & _ & Hloss & Hadanet & _ & _ & _ & Hestimator
                 & Hreturns).
  split; [exact (Hloss eq_refl) | split].
  - exact (Hadanet eq_refl).
  - destruct (Hreturns eq_refl eq_refl) as [estimator_spec Hspec].
    exists estimator_spec. split; [exact Hspec | ].
    destruct (Hestimator estimator_spec Hspec) as (_ & _ & _ & Hin).
    exact (Hin eq_refl).
Defined.

Lemma world_after_ret {A : Type} (a : A) (w : World) :
  world_after (ret a) w = w.
Proof. reflexivity. Qed.

(** The number of subnetworks only sets the length of the list.  Whatever
    [num_subnetworks] is, zero and negative numbers included, the call adds
    the same nodes to the graph (the tensors of the one subnetwork record
    are always created, and created once), and every other field of the spec
    is the same. *)
Theorem num_subnetworks_only_sets_the_length
    (name : PyVal) (random_seed n n' : Z)
    (bias loss adanet_loss eval_metrics : PyVal) (dict_predictions : bool)
    (export_output_key subnetwork_builders train_op : PyVal) (w : World) :
  let call num_subnetworks :=
    dummy_ensemble_spec name random_seed num_subnetworks bias loss
      adanet_loss eval_metrics dict_predictions export_output_key
      subnetwork_builders train_op in
  let spec := result (call n) w in
  let spec' := result (call n') w in
  world_after (call n) w = world_after (call n') w
  /\ ComplexityRegularized.bias (_EnsembleSpec.ensemble spec)
     = ComplexityRegularized.bias (_EnsembleSpec.ensemble spec')
  /\ ComplexityRegularized.logits (_EnsembleSpec.ensemble spec)
     = ComplexityRegularized.logits (_EnsembleSpec.ensemble spec')
  /\ _EnsembleSpec.predictions spec = _EnsembleSpec.predictions spec'
  /\ _EnsembleSpec.loss spec = _EnsembleSpec.loss spec'
  /\ _EnsembleSpec.adanet_loss spec = _EnsembleSpec.adanet_loss spec'
  /\ _EnsembleSpec.export_outputs spec = _EnsembleSpec.export_outputs spec'
  /\ (n <= 0 ->
        ComplexityRegularized.weighted_subnetworks (_EnsembleSpec.ensemble spec)
        = []).
Proof.
  intros call spec spec'. split.
  - unfold call, dummy_ensemble_spec.
    repeat (rewrite !world_after_bind; cbv beta).
    rewrite !world_after_ret. reflexivity.
  - unfold spec, spec', call.
    rewrite !(dummy_ensemble_spec_returns _ _ _ _ _ _ _ _ _ _ _ w). simpl.
    repeat (split; [reflexivity | ]).
    intros Hn. apply list_mul_nonpositive, Hn.
Qed.

Lemma num_subnetworks_only_sets_the_length_witness :
  ComplexityRegularized.weighted_subnetworks
    (_EnsembleSpec.ensemble
       (result (dummy_ensemble_spec (PStr "ensemble") 42 0 (PFloat 0) PNone
                  PNone PNone false PNone PNone PNone) empty_world))
  = []
  /\ world_after
       (dummy_ensemble_spec (PStr "ensemble") 42 0 (PFloat 0) PNone PNone
          PNone false PNone PNone PNone) empty_world
     = world_after (dummy_ensemble_spec_by_default (PStr "ensemble"))
         empty_world.
Proof.
  pose proof (num_subnetworks_only_sets_the_length (PStr "ensemble") 42 0 1
                (PFloat 0) PNone PNone PNone false PNone PNone PNone
                empty_world) as H.
  cbv zeta in H. destruct H as (Hworld & _ & _ & _ & _ & _ & _ & Hempty).
  split.
  - apply Hempty. lia.
  - exact Hworld.
Defined.

(** The export outputs hold at most the requested key.  The result of
    [_dummy_export_outputs] is [None], for a key that is none of the five
    constants, or a dictionary with exactly one entry, under the requested
    key.  The entry is an export-output object for the four valid keys and
    the raw predictions for "invalid". *)
Theorem export_outputs_hold_only_the_requested_key
    (export_output_key logits predictions : PyVal) (w : World) :
  let outputs :=
    result (_dummy_export_outputs export_output_key logits predictions) w in
  (outputs = PNone
   /\ forall key, In key ExportOutputKeys.all -> export_output_key <> PStr key)
  \/ (exists key value,
        export_output_key = PStr key
        /\ In key ExportOutputKeys.all
        /\ outputs = PDict {[ key := value ]}
        /\ keys_of outputs = {[ key ]}
        /\ (key <> ExportOutputKeys.INVALID -> is_export_output value = true)
        /\ (key = ExportOutputKeys.INVALID -> value = predictions)).
Proof.
  intros outputs. unfold outputs.
  rewrite (_dummy_export_outputs_returns _ _ _ w). unfold export_outputs_of.
  destruct (py_eq_str export_output_key ExportOutputKeys.CLASSIFICATION_CLASSES)
    eqn:E1;
    [ | destruct (py_eq_str export_output_key
                    ExportOutputKeys.CLASSIFICATION_SCORES) eqn:E2;
        [ | destruct (py_eq_str export_output_key ExportOutputKeys.REGRESSION)
              eqn:E3;
            [ | destruct (py_eq_str export_output_key
                            ExportOutputKeys.PREDICTION) eqn:E4;
                [ | destruct (py_eq_str export_output_key
                                ExportOutputKeys.INVALID) eqn:E5 ]]]].
  1-5: right;
    match goal with
    | H : py_eq_str _ ?c = true |- _ =>
        apply py_eq_str_true in H; subst export_output_key; exists c
    end;
    eexists; split; [reflexivity | ];
    split; [simpl; tauto | ];
    split; [reflexivity | ];
    split; [simpl; apply dom_singleton_L | ];
    split; [intros Hk; try reflexivity; congruence | ];
    intros Hk; try reflexivity; discriminate Hk.
  left. split; [reflexivity | ].
  intros key Hin.
  apply py_eq_str_false in E1, E2, E3, E4, E5.
  simpl in Hin. decompose [or] Hin; subst; try assumption; contradiction.
Qed.

(** An ensemble spec is built around one logits tensor, drawn with three
    times the seed.  The ensemble's logits are the predictions themselves,
    or with [dict_predictions] the entry "logits" of a predictions
    dictionary whose only other entry, "classes", is the integer cast of
    their absolute value; and the export outputs are made from these same
    logits and predictions. *)
Theorem ensemble_spec_shares_one_logits_tensor
    (name : PyVal) (random_seed num_subnetworks : Z)
    (bias loss adanet_loss eval_metrics : PyVal)
    (export_output_key subnetwork_builders train_op : PyVal) (w : World) :
  let spec dict_predictions :=
    result (dummy_ensemble_spec name random_seed num_subnetworks bias loss
              adanet_loss eval_metrics dict_predictions export_output_key
              subnetwork_builders train_op) w in
  let logits dict_predictions :=
    ComplexityRegularized.logits
      (_EnsembleSpec.ensemble (spec dict_predictions)) in
  _EnsembleSpec.predictions (spec false) = logits false
  /\ item_of (_EnsembleSpec.predictions (spec true)) "logits"
     = Some (logits true)
  /\ item_of (_EnsembleSpec.predictions (spec true)) "classes"
     = Some (Cast (Abs (logits true)) int64)
  /\ keys_of (_EnsembleSpec.predictions (spec true))
     = {[ "logits"; "classes" ]}
  /\ forall dict_predictions,
       logits dict_predictions
       = result (dummy_tensor [] (random_seed * 3)) w
       /\ _EnsembleSpec.export_outputs (spec dict_predictions)
          = result (_dummy_export_outputs export_output_key
                      (logits dict_predictions)
                      (_EnsembleSpec.predictions (spec dict_predictions))) w.
Proof.
  intros spec logits. unfold logits, spec.
  rewrite !(dummy_ensemble_spec_returns _ _ _ _ _ _ _ _ _ _ _ w). simpl.
  split; [reflexivity | split; [reflexivity | split; [reflexivity | split]]].
  - rewrite !dom_insert_L, dom_empty_L. set_solver.
  - intros dict_predictions.
    rewrite (dummy_ensemble_spec_returns _ _ _ _ _ _ _ _ _ _ _ w). simpl.
    rewrite (_dummy_export_outputs_returns _ _ _ w).
    split; reflexivity.
Qed.

(** Seeds that agree modulo [2^31 - 1] give the same pair of op seeds, and
    no others do. *)
Lemma get_seed_eq (graph_seed : option Z) (seed seed' : Z) :
  tf_random_seed.get_seed graph_seed seed
  = tf_random_seed.get_seed graph_seed seed'
  <-> seed mod tf_random_seed.MAXINT32 = seed' mod tf_random_seed.MAXINT32.
Proof.
  unfold tf_random_seed.get_seed, tf_random_seed.truncate_seed.
  assert (Hmax : tf_random_seed.MAXINT32 = 2147483647) by reflexivity.
  rewrite Hmax.
  pose proof (Z.mod_pos_bound seed 2147483647 eq_refl) as Hseed.
  pose proof (Z.mod_pos_bound seed' 2147483647 eq_refl) as Hseed'.
  destruct graph_seed as [global_seed | ]; cbn [fst snd];
    repeat match goal with
           | |- context [Z.eqb ?a 0] => destruct (Z.eqb_spec a 0)
           end;
    cbn [andb fst snd]; try discriminate;
    split; intros H; first [congruence | injection H; intros; lia | lia].
Qed.

Lemma op_seeds_of_random_tensor (graph_seed : option Z) (shape : list Z)
    (seed : Z) :
  op_seeds_of (random_tensor graph_seed shape seed)
  = Some (tf_random_seed.get_seed graph_seed seed).
Proof.
  unfold random_tensor, op_seeds_of. cbv zeta.
  destruct (tf_random_seed.get_seed graph_seed seed). reflexivity.
Qed.

(** The defaulted tensors are different draws unless the seed is a multiple
    of [2^31 - 1].  TensorFlow reduces the seed of an op modulo [2^31 - 1].
    When [random_seed] is not a multiple of it, the default loss (seed), the
    default AdaNet loss (twice the seed) and the logits (three times the
    seed) of an ensemble spec are drawn with pairwise different op seeds,
    and so are the default loss and the predictions of an estimator spec.
    When it is a multiple, zero included, they are all drawn with the same
    op seeds, so that the tensors of one shape hold the same values. *)
Theorem default_tensors_are_drawn_with_different_seeds
    (name : PyVal) (random_seed num_subnetworks : Z)
    (bias eval_metrics : PyVal) (dict_predictions : bool)
    (export_output_key subnetwork_builders train_op eval_metric_ops : PyVal)
    (w : World) :
  let spec :=
    result (dummy_ensemble_spec name random_seed num_subnetworks bias PNone
              PNone eval_metrics dict_predictions export_output_key
              subnetwork_builders train_op) w in
  let logits := ComplexityRegularized.logits (_EnsembleSpec.ensemble spec) in
  let outcome :=
    result (dummy_estimator_spec PNone random_seed eval_metric_ops) w in
  (random_seed mod tf_random_seed.MAXINT32 <> 0 ->
     op_seeds_of (_EnsembleSpec.loss spec)
     <> op_seeds_of (_EnsembleSpec.adanet_loss spec)
     /\ op_seeds_of (_EnsembleSpec.loss spec) <> op_seeds_of logits
     /\ op_seeds_of (_EnsembleSpec.adanet_loss spec) <> op_seeds_of logits
     /\ forall estimator_spec,
          outcome = Returned estimator_spec ->
          op_seeds_of (EstimatorSpec.loss estimator_spec)
          <> op_seeds_of (EstimatorSpec.predictions estimator_spec))
  /\ (random_seed mod tf_random_seed.MAXINT32 = 0 ->
        op_seeds_of (_EnsembleSpec.loss spec)
        = Some (tf_random_seed.get_seed (graph_seed w) 0)
        /\ op_seeds_of (_EnsembleSpec.adanet_loss spec)
           = Some (tf_random_seed.get_seed (graph_seed w) 0)
        /\ op_seeds_of logits
           = Some (tf_random_seed.get_seed (graph_seed w) 0)
        /\ forall estimator_spec,
             outcome = Returned estimator_spec ->
             op_seeds_of (EstimatorSpec.loss estimator_spec)
             = Some (tf_random_seed.get_seed (graph_seed w) 0)
             /\ op_seeds_of (EstimatorSpec.predictions estimator_spec)
                = Some (tf_random_seed.get_seed (graph_seed w) 0)).
Proof.
  intros spec logits outcome. unfold logits, spec, outcome.
  rewrite (dummy_ensemble_spec_returns _ _ _ _ _ _ _ _ _ _ _ w).
  cbn [_EnsembleSpec.ensemble _EnsembleSpec.loss _EnsembleSpec.adanet_loss
       ComplexityRegularized.logits is_None].
  assert (Hmax : tf_random_seed.MAXINT32 = 2147483647) by reflexivity.
  rewrite !op_seeds_of_random_tensor. rewrite Hmax. split.
  - intros Hseed.
    pose proof (Z.mod_pos_bound random_seed 2147483647 eq_refl).
    pose proof (Z.mod_pos_bound (random_seed * 2) 2147483647 eq_refl).
    pose proof (Z.mod_pos_bound (random_seed * 3) 2147483647 eq_refl).
    pose proof (Z.div_mod random_seed 2147483647).
    pose proof (Z.div_mod (random_seed * 2) 2147483647).
    pose proof (Z.div_mod (random_seed * 3) 2147483647).
    split; [ | split; [ | split]].
    + intros [= Heq%get_seed_eq]. rewrite Hmax in Heq. lia.
    + intros [= Heq%get_seed_eq]. rewrite Hmax in Heq. lia.
    + intros [= Heq%get_seed_eq]. rewrite Hmax in Heq. lia.
    + intros estimator_spec Hreturned.
      destruct (dummy_estimator_spec_returned _ _ _ _ _ Hreturned)
        as (_ & -> & _ & Hstored).
      rewrite (Hstored eq_refl), !op_seeds_of_random_tensor.
      intros [= Heq%get_seed_eq]. rewrite Hmax in Heq. lia.
  - intros Hseed.
    assert (Hsame : forall k,
               tf_random_seed.get_seed (graph_seed w) (random_seed * k)
               = tf_random_seed.get_seed (graph_seed w) 0).
    { intros k. apply get_seed_eq. rewrite Hmax.
      rewrite Z.mul_mod, Hseed by lia. reflexivity. }
    pose proof (Hsame 1) as Hone. rewrite Z.mul_1_r in Hone.
    split; [ | split; [ | split]].
    + rewrite Hone. reflexivity.
    + rewrite Hsame. reflexivity.
    + rewrite Hsame. reflexivity.
    + intros estimator_spec Hreturned.
      destruct (dummy_estimator_spec_returned _ _ _ _ _ Hreturned)
        as (_ & -> & _ & Hstored).
      rewrite (Hstored eq_refl), !op_seeds_of_random_tensor, Hone, Hsame.
      split; reflexivity.
Qed.

Lemma default_tensors_are_drawn_with_different_seeds_witness :
  (let spec :=
     result (dummy_ensemble_spec_by_default (PStr "ensemble")) empty_world in
   op_seeds_of (_EnsembleSpec.loss spec)
   <> op_seeds_of (_EnsembleSpec.adanet_loss spec))
  /\ (let spec :=
        result (dummy_ensemble_spec (PStr "ensemble") 2147483647 1 (PFloat 0)
                  PNone PNone PNone false PNone PNone PNone) empty_world in
      op_seeds_of (_EnsembleSpec.loss spec) = Some (87654321, 0)
      /\ op_seeds_of (_EnsembleSpec.adanet_loss spec) = Some (87654321, 0)).
Proof.
  split.
  - pose proof (default_tensors_are_drawn_with_different_seeds (PStr "ensemble")
                  42 1 (PFloat 0) PNone false PNone PNone PNone PNone
                  empty_world) as [H _].
    apply H. discriminate.
  - pose proof (default_tensors_are_drawn_with_different_seeds (PStr "ensemble")
                  2147483647 1 (PFloat 0) PNone false PNone PNone PNone PNone
                  empty_world) as [_ H].
    destruct (H eq_refl) as (H1 & H2 & _). split; [exact H1 | exact H2].
Defined.

(** [dataset_input_fn(features, labels)] returns a function that, for any
    [params], returns a features dictionary with the single key "x", holding
    the element of a one-element dataset made from [[features]], and as
    labels the element of such a dataset made from [[labels]], or [None]
    when [labels] is [None]. *)
Theorem dataset_input_fn_returns_dataset_elements
    (features labels params : PyVal) (w w' : World) :
  let _input_fn := result (dataset_input_fn features labels) w in
  let input_features := fst (result (_input_fn params) w') in
  let input_labels := snd (result (_input_fn params) w') in
  input_features = PDict {[ "x" := dataset_element features ]}
  /\ keys_of input_features = {[ "x" ]}
  /\ (labels = PNone -> input_labels = PNone)
  /\ (labels <> PNone -> input_labels = dataset_element labels)
  /\ result (_input_fn params) w' = result (_input_fn PNone) w'.
Proof.
  intros _input_fn input_features input_labels.
  unfold input_features, input_labels, _input_fn.
  rewrite (dataset_input_fn_call_returns features labels params w w').
  rewrite (dataset_input_fn_call_returns features labels PNone w w'). simpl.
  split; [reflexivity | split; [apply dom_singleton_L | split; [ | split]]].
  - intros ->. reflexivity.
  - intros H. apply is_None_false in H. rewrite H. reflexivity.
  - reflexivity.
Qed.

Lemma dataset_input_fn_returns_dataset_elements_witness :
  result (result (dataset_input_fn Defaults.features Defaults.labels)
            empty_world PNone) empty_world
  = (PDict {[ "x" := dataset_element (PFloat 8) ]},
     dataset_element (PFloat 9))
  /\ snd (result (result (dataset_input_fn Defaults.features PNone)
                    empty_world PNone) empty_world)
     = PNone.
Proof.
  pose proof (dataset_input_fn_returns_dataset_elements Defaults.features
                Defaults.labels PNone empty_world empty_world)
    as (Hx & _ & _ & Hy & _).
  pose proof (dataset_input_fn_returns_dataset_elements Defaults.features
                PNone PNone empty_world empty_world)
    as (_ & _ & Hnone & _ & _).
  split.
  - apply injective_projections; [exact Hx | apply Hy; discriminate].
  - apply Hnone. reflexivity.
Defined.

(** * Further properties of the test-case base class *)

Local Open Scope list_scope.


Lemma below_not_prefix (p q : list string) : below p q -> ~ q `prefix_of` p.
Proof.
  intros [Hpq Hne] Hqp. apply Hne. apply (anti_symm prefix); assumption.
Qed.

Lemma after_rmtree_lookup_outside (p q : list string) (fs : FS) :
  ~ p `prefix_of` q -> after_rmtree p fs !! q = fs !! q.
Proof.
  intros Hout. unfold after_rmtree.
  destruct (node_at fs p) as [[|]|]; try reflexivity.
  rewrite remove_tree_lookup.
  destruct (decide (p `prefix_of` q)); [contradiction | reflexivity].
Qed.

Lemma after_rmtree_node_at_outside (p q : list string) (fs : FS) :
  ~ p `prefix_of` q -> node_at (after_rmtree p fs) q = node_at fs q.
Proof.
  intros Hout. destruct q as [|x q]; [reflexivity | ].
  simpl. apply after_rmtree_lookup_outside, Hout.
Qed.

Lemma remove_tree_idemp (p : list string) (fs : FS) :
  remove_tree p (remove_tree p fs) = remove_tree p fs.
Proof.
  apply map_eq. intros q. rewrite !remove_tree_lookup.
  destruct (decide (p `prefix_of` q)); reflexivity.
Qed.

Lemma after_rmtree_idemp (p : list string) (fs : FS) :
  after_rmtree p (after_rmtree p fs) = after_rmtree p fs.
Proof.
  destruct (node_at fs p) as [[|]|] eqn:Hp.
  - assert (E : after_rmtree p fs = remove_tree p fs)
      by (unfold after_rmtree; rewrite Hp; reflexivity).
    rewrite E. unfold after_rmtree.
    destruct (node_at (remove_tree p fs) p) as [[|]|];
      [apply remove_tree_idemp | reflexivity | reflexivity].
  - assert (E : after_rmtree p fs = fs)
      by (unfold after_rmtree; rewrite Hp; reflexivity).
    rewrite E. exact E.
  - assert (E : after_rmtree p fs = fs)
      by (unfold after_rmtree; rewrite Hp; reflexivity).
    rewrite E. exact E.
Qed.


(** Putting an emptied directory back. *)
Lemma insert_remove_tree_empty_dir (p : list string) (fs : FS) :
  p <> [] -> empty_dir fs p -> <[p := Dir]> (remove_tree p fs) = fs.
Proof.
  intros Hne [Hdir Hempty]. rewrite node_at_nonempty in Hdir by exact Hne.
  apply map_eq. intros q. destruct (decide (q = p)) as [-> | Hq].
  - rewrite lookup_insert_eq. congruence.
  - rewrite lookup_insert_ne by congruence. rewrite remove_tree_lookup.
    destruct (decide (p `prefix_of` q)) as [Hpq | ]; [ | reflexivity].
    symmetry. apply Hempty. split; assumption.
Qed.


(** [os.makedirs] on a free path whose parent is a directory makes just the
    one directory. *)
Lemma makedirs_rev_in_existing_parent (p : list string) (env : Env) :
  node_at (filesystem env) p = None ->
  node_at (filesystem env) (parent p) = Some Dir ->
  makedirs_rev (rev p) env
  = (Returned tt, mkEnv (<[p := Dir]> (filesystem env)) (self env)).
Proof.
  intros Hfree Hpar.
  destruct (node_at_None _ _ Hfree) as [Hne _].
  destruct (exists_last Hne) as [q [x ->]].
  rewrite parent_snoc in Hpar.
  rewrite rev_unit, makedirs_rev_cons, rev_involutive.
  rewrite bool_decide_eq_true_2 by (rewrite Hpar; eexists; reflexivity).
  rewrite mkdir_unfold, Hfree, parent_snoc, Hpar. reflexivity.
Qed.



Lemma parent_not_below (p : list string) :
  p <> [] -> ~ p `prefix_of` parent p.
Proof.
  intros Hne. destruct (exists_last Hne) as [q [x ->]].
  rewrite parent_snoc. apply (snoc_not_prefix q x q). reflexivity.
Qed.

Lemma remove_tree_node_at_outside (p q : list string) (fs : FS) :
  ~ p `prefix_of` q -> node_at (remove_tree p fs) q = node_at fs q.
Proof.
  intros Hout. destruct q as [|x q]; [reflexivity | ].
  simpl. rewrite remove_tree_lookup.
  destruct (decide (p `prefix_of` (x :: q))); [contradiction | reflexivity].
Qed.


Section MoreOnSetUpTearDown.

Variable resolve : string -> list string.
Variable test_tmpdir : string.
Variables base_setUp base_tearDown : IO unit.

(** The hooks of the base classes return normally and touch neither the
    file system nor the attribute. *)
Hypothesis base_setUp_returns : forall env, base_setUp env = (Returned tt, env).
Hypothesis base_tearDown_returns :
  forall env, base_tearDown env = (Returned tt, env).

Local Abbreviation setUp := (AdanetTestCase.setUp resolve test_tmpdir base_setUp).
Local Abbreviation tearDown := (AdanetTestCase.tearDown resolve base_tearDown).
Local Abbreviation path_of env :=
  (os_path_join test_tmpdir (test_id (self env))).

(** [setUp] is the directory creation, run after the removal. *)
Lemma setUp_is_makedirs_after_rmtree (env : Env) :
  setUp env
  = makedirs_rev (rev (resolve (path_of env)))
      (mkEnv (after_rmtree (resolve (path_of env)) (filesystem env))
         (mkInstance (test_id (self env)) (Some (path_of env)))).
Proof.
  apply (setUp_unfold resolve test_tmpdir base_setUp base_setUp_returns).
Qed.


(** What a [setUp] that returned has done. *)
Lemma setUp_returned (env env' : Env) :
  wf_fs (filesystem env) ->
  resolve (path_of env) <> [] ->
  setUp env = (Returned tt, env') ->
  self env' = mkInstance (test_id (self env)) (Some (path_of env))
  /\ empty_dir (filesystem env') (resolve (path_of env))
  /\ wf_fs (filesystem env')
  /\ node_at (filesystem env) (resolve (path_of env)) <> Some File
  /\ grows_along (resolve (path_of env))
       (after_rmtree (resolve (path_of env)) (filesystem env))
       (filesystem env').
Proof.
  intros Hwf Hne Hrun. rewrite setUp_is_makedirs_after_rmtree in Hrun.
  set (p := resolve (path_of env)) in *.
  destruct (makedirs_rev_spec _ _ _ _ Hrun) as (Hself & Hgrow & Hwf' & Hr).
  rewrite rev_involutive in Hgrow, Hr. simpl in *.
  destruct Hr as [Hfree Hdir].
  split; [exact Hself | split; [ | split; [ | split]]].
  - split; [exact Hdir | ]. intros q Hq.
    destruct (Hgrow q) as [E | (Hpre & _)].
    + rewrite E. apply after_rmtree_nothing_below; assumption.
    + exfalso. exact (below_not_prefix p q Hq Hpre).
  - apply Hwf', after_rmtree_wf, Hwf.
  - intros Hfile. unfold after_rmtree in Hfree. rewrite Hfile in Hfree.
    congruence.
  - exact Hgrow.
Qed.

(** [tearDown] needs [setUp].  On an instance whose [test_subdirectory] was
    never assigned, [tearDown] raises [AttributeError] and removes
    nothing. *)
Theorem tearDown_before_setUp_raises (env : Env) :
  test_subdirectory (self env) = None ->
  tearDown env = (Raised AttributeError, env).
Proof.
  intros Hattr. unfold AdanetTestCase.tearDown.
  unfold io_bind at 1. rewrite base_tearDown_returns.
  unfold io_bind, AdanetTestCase.get_test_subdirectory.
  rewrite Hattr. reflexivity.
Qed.




(** [setUp] and [tearDown] touch only their own directory.  Whatever the
    outcome, [setUp] leaves every path that is neither inside the test
    directory nor above it as it was, and above it only makes a directory
    where there was nothing; [tearDown] leaves every path outside the test
    directory as it was. *)
Theorem setUp_and_tearDown_touch_only_their_directory
    (env : Env) (q : list string) :
  ~ resolve (path_of env) `prefix_of` q ->
  (~ q `prefix_of` resolve (path_of env) ->
     filesystem (snd (setUp env)) !! q = filesystem env !! q)
  /\ (filesystem (snd (setUp env)) !! q = filesystem env !! q
      \/ (filesystem env !! q = None
          /\ filesystem (snd (setUp env)) !! q = Some Dir))
  /\ (forall env1,
        test_subdirectory (self env1) = Some (path_of env) ->
        filesystem (snd (tearDown env1)) !! q = filesystem env1 !! q).
Proof.
  intros Hout.
  set (p := resolve (path_of env)) in *.
  assert (Hgrow : grows_along p (after_rmtree p (filesystem env))
                    (filesystem (snd (setUp env)))).
  { rewrite setUp_is_makedirs_after_rmtree. fold p.
    destruct (makedirs_rev (rev p)
                (mkEnv (after_rmtree p (filesystem env))
                   (mkInstance (test_id (self env)) (Some (path_of env)))))
      as [r env'] eqn:Hrun.
    destruct (makedirs_rev_spec _ _ _ _ Hrun) as (_ & Hgrow & _).
    rewrite rev_involutive in Hgrow. exact Hgrow. }
  assert (Hcases :
    filesystem (snd (setUp env)) !! q = filesystem env !! q
    \/ (q `prefix_of` p /\ filesystem env !! q = None
        /\ filesystem (snd (setUp env)) !! q = Some Dir)).
  { destruct (Hgrow q) as [E | (Hpre & Hnone & Hdir)].
    - left. rewrite E. apply after_rmtree_lookup_outside, Hout.
    - right. rewrite after_rmtree_lookup_outside in Hnone by exact Hout.
      auto. }
  split; [ | split].
  - intros Hunrelated. destruct Hcases as [E | (Hpre & _)];
      [exact E | contradiction].
  - destruct Hcases as [E | (_ & Hnone & Hdir)]; auto.
  - intros env1 Hattr.
    rewrite (tearDown_unfold resolve base_tearDown base_tearDown_returns
               env1 _ Hattr).
    simpl. apply after_rmtree_lookup_outside, Hout.
Qed.


(** [tearDown] removes the test directory only.  After a [setUp] that
    returned, [tearDown] returns and every directory above the test
    directory is still there, those that [os.makedirs] had to create
    included: they are never cleaned up. *)
Theorem tearDown_leaves_the_directories_above (env env' : Env) :
  wf_fs (filesystem env) ->
  resolve (path_of env) <> [] ->
  setUp env = (Returned tt, env') ->
  exists env'',
    tearDown env' = (Returned tt, env'')
    /\ node_at (filesystem env'') (resolve (path_of env)) = None
    /\ forall q, below q (resolve (path_of env)) ->
                 node_at (filesystem env'') q = Some Dir.
Proof.
  intros Hwf Hne Hrun.
  destruct (setUp_returned env env' Hwf Hne Hrun)
    as (Hself & [Hdir _] & Hwf' & _ & _).
  set (p := resolve (path_of env)) in *.
  assert (Hattr : test_subdirectory (self env') = Some (path_of env))
    by (rewrite Hself; reflexivity).
  eexists. split; [ | split].
  - apply (tearDown_unfold resolve base_tearDown base_tearDown_returns
             env' _ Hattr).
  - simpl. fold p. unfold after_rmtree. rewrite Hdir.
    rewrite node_at_nonempty by exact Hne. apply remove_tree_gone.
    reflexivity.
  - intros q Hq. simpl. fold p.
    rewrite after_rmtree_node_at_outside by (apply below_not_prefix, Hq).
    destruct Hq as [[k ->] Hqk].
    destruct k as [|x k]; [rewrite app_nil_r in Hqk; congruence | ].
    apply (wf_fs_ancestor_is_dir _ q Hwf' (x :: k) Dir); [discriminate | ].
    rewrite <- Hdir. symmetry. apply node_at_nonempty.
    destruct q; discriminate.
Qed.

(** [tearDown] is idempotent.  Once [tearDown] has returned, running it
    again returns and changes nothing. *)
Theorem tearDown_is_idempotent (env env1 : Env) :
  tearDown env = (Returned tt, env1) ->
  tearDown env1 = (Returned tt, env1).
Proof.
  intros Hrun.
  destruct (test_subdirectory (self env)) as [path|] eqn:Hattr.
  - rewrite (tearDown_unfold resolve base_tearDown base_tearDown_returns
               env path Hattr) in Hrun.
    injection Hrun as <-.
    rewrite (tearDown_unfold resolve base_tearDown base_tearDown_returns
               (mkEnv (after_rmtree (resolve path) (filesystem env))
                  (self env))
               path Hattr).
    simpl. rewrite after_rmtree_idemp. reflexivity.
  - rewrite (tearDown_before_setUp_raises env Hattr) in Hrun.
    discriminate Hrun.
Qed.

(** [setUp] can be run again.  In a well-formed file system, once [setUp]
    has returned, running it again returns and leaves the same state: the
    same attribute and the same, still empty, directory. *)
Theorem setUp_can_be_run_again (env env1 : Env) :
  wf_fs (filesystem env) ->
  resolve (path_of env) <> [] ->
  setUp env = (Returned tt, env1) ->
  setUp env1 = (Returned tt, env1).
Proof.
  intros Hwf Hne Hrun.
  destruct (setUp_returned env env1 Hwf Hne Hrun)
    as (Hself & Hempty & Hwf1 & _ & _).
  set (p := resolve (path_of env)) in *.
  assert (Hid : test_id (self env1) = test_id (self env))
    by (rewrite Hself; reflexivity).
  rewrite setUp_is_makedirs_after_rmtree. rewrite Hid. fold p.
  destruct Hempty as [Hdir Hbelow].
  assert (Hafter : after_rmtree p (filesystem env1)
                   = remove_tree p (filesystem env1))
    by (unfold after_rmtree; rewrite Hdir; reflexivity).
  rewrite Hafter.
  rewrite makedirs_rev_in_existing_parent; simpl.
  - rewrite insert_remove_tree_empty_dir by (try split; assumption).
    rewrite <- Hself. destruct env1; reflexivity.
  - rewrite node_at_nonempty by exact Hne. apply remove_tree_gone.
    reflexivity.
  - rewrite remove_tree_node_at_outside by (apply parent_not_below, Hne).
    rewrite node_at_nonempty in Hdir by exact Hne.
    destruct (Hwf1 _ _ Hdir) as [_ Hpar]. exact Hpar.
Qed.

End MoreOnSetUpTearDown.

(** ** The further properties on the examples *)

(** Checks well-formedness of a file system given by its insertions. *)
Ltac example_wf :=
  repeat (apply map_Forall_insert_2; [split; [discriminate | reflexivity] | ]);
  apply map_Forall_empty.


Lemma example_shared_wf : wf_fs (filesystem example_shared_env).
Proof.
  unfold example_shared_env, example_fs. cbn [filesystem]. example_wf.
Qed.

Lemma example_bare_wf : wf_fs (filesystem example_bare_env).
Proof. unfold example_bare_env. cbn [filesystem]. example_wf. Qed.


Lemma example_path_nonroot (fs : FS) (attr : option string) :
  split_path
    (os_path_join "/tmp"
       (test_id (self (mkEnv fs (mkInstance "suite.Test.test_x" attr)))))
  <> [].
Proof. intros H. vm_compute in H. discriminate H. Qed.

Lemma tearDown_before_setUp_raises_witness :
  AdanetTestCase.tearDown split_path (io_ret tt) example_env
  = (Raised AttributeError, example_env).
Proof.
  apply (tearDown_before_setUp_raises split_path (io_ret tt)
           (fun _ => eq_refl) example_env).
  reflexivity.
Defined.



Lemma setUp_and_tearDown_touch_only_their_directory_witness :
  let q := ["tmp"; "suite.Test.test_y"; "keep"] in
  filesystem
    (snd (AdanetTestCase.setUp split_path "/tmp" (io_ret tt)
            example_shared_env)) !! q
  = filesystem example_shared_env !! q
  /\ filesystem
       (snd (AdanetTestCase.tearDown split_path (io_ret tt)
               (mkEnv (filesystem example_shared_env)
                  (mkInstance "suite.Test.test_x"
                     (Some "/tmp/suite.Test.test_x"))))) !! q
     = filesystem example_shared_env !! q.
Proof.
  intros q.
  assert (Hout : ~ split_path
                     (os_path_join "/tmp"
                        (test_id (self example_shared_env)))
                   `prefix_of` q).
  { intros [k Hk]. vm_compute in Hk. congruence. }
  assert (Hunrelated : ~ q `prefix_of`
                         split_path
                           (os_path_join "/tmp"
                              (test_id (self example_shared_env)))).
  { intros [k Hk]. vm_compute in Hk. congruence. }
  destruct (setUp_and_tearDown_touch_only_their_directory split_path "/tmp"
              (io_ret tt) (io_ret tt) (fun _ => eq_refl) (fun _ => eq_refl)
              example_shared_env q Hout)
    as (HsetUp & _ & HtearDown).
  split.
  - apply HsetUp, Hunrelated.
  - apply (HtearDown (mkEnv (filesystem example_shared_env)
                        (mkInstance "suite.Test.test_x"
                           (Some "/tmp/suite.Test.test_x")))).
    reflexivity.
Defined.


Lemma tearDown_leaves_the_directories_above_witness :
  node_at (filesystem example_bare_env) ["tmp"] = None
  /\ exists env' env'',
       AdanetTestCase.setUp split_path "/tmp" (io_ret tt) example_bare_env
       = (Returned tt, env')
       /\ AdanetTestCase.tearDown split_path (io_ret tt) env'
          = (Returned tt, env'')
       /\ node_at (filesystem env'') ["tmp"] = Some Dir.
Proof.
  split; [reflexivity | ].
  pose (env' := mkEnv (<[ ["tmp"; "suite.Test.test_x"] := Dir ]>
                         (<[ ["tmp"] := Dir ]> ∅))
                  (mkInstance "suite.Test.test_x"
                     (Some "/tmp/suite.Test.test_x"))).
  assert (Hrun : AdanetTestCase.setUp split_path "/tmp" (io_ret tt)
                   example_bare_env
                 = (Returned tt, env'))
    by (vm_compute; reflexivity).
  destruct (tearDown_leaves_the_directories_above split_path "/tmp"
              (io_ret tt) (io_ret tt) (fun _ => eq_refl) (fun _ => eq_refl)
              example_bare_env env' example_bare_wf
              (example_path_nonroot _ _) Hrun)
    as (env'' & HtearDown & _ & Habove).
  exists env', env''. split; [exact Hrun | split; [exact HtearDown | ]].
  apply Habove. split.
  - exists ["suite.Test.test_x"]. reflexivity.
  - intros H. vm_compute in H. discriminate H.
Defined.

Lemma tearDown_is_idempotent_witness :
  let env :=
    mkEnv example_fs
      (mkInstance "suite.Test.test_x" (Some "/tmp/suite.Test.test_x")) in
  let env1 :=
    mkEnv (<[ ["tmp"] := Dir ]> ∅)
      (mkInstance "suite.Test.test_x" (Some "/tmp/suite.Test.test_x")) in
  AdanetTestCase.tearDown split_path (io_ret tt) env = (Returned tt, env1)
  /\ AdanetTestCase.tearDown split_path (io_ret tt) env1 = (Returned tt, env1).
Proof.
  intros env env1.
  assert (Hrun : AdanetTestCase.tearDown split_path (io_ret tt) env
                 = (Returned tt, env1))
    by (vm_compute; reflexivity).
  split; [exact Hrun | ].
  exact (tearDown_is_idempotent split_path (io_ret tt) (fun _ => eq_refl)
           env env1 Hrun).
Defined.

Lemma setUp_can_be_run_again_witness :
  let env1 :=
    mkEnv (<[ ["tmp"; "suite.Test.test_x"] := Dir ]> (<[ ["tmp"] := Dir ]> ∅))
      (mkInstance "suite.Test.test_x" (Some "/tmp/suite.Test.test_x")) in
  AdanetTestCase.setUp split_path "/tmp" (io_ret tt) example_env
  = (Returned tt, env1)
  /\ AdanetTestCase.setUp split_path "/tmp" (io_ret tt) env1
     = (Returned tt, env1).
Proof.
  intros env1.
  assert (Hrun : AdanetTestCase.setUp split_path "/tmp" (io_ret tt)
                   example_env
                 = (Returned tt, env1))
    by (vm_compute; reflexivity).
  split; [exact Hrun | ].
  exact (setUp_can_be_run_again split_path "/tmp" (io_ret tt)
           (fun _ => eq_refl) example_env env1 example_fs_wf
           (example_path_nonroot _ _) Hrun).
Defined.

(** * The scope of the test directory *)

Local Open Scope list_scope.

(** ** Path strings and their components *)










(** ** [setUp] and [tearDown] with arbitrary hooks of the base classes *)

Section Scope.

Variable resolve : string -> list string.
Variable test_tmpdir : string.
Variables base_setUp base_tearDown : IO unit.

Local Abbreviation setUp := (AdanetTestCase.setUp resolve test_tmpdir base_setUp).
Local Abbreviation tearDown := (AdanetTestCase.tearDown resolve base_tearDown).






End Scope.


